(** * Document-ingestion core of the OCR service (parsers.py)

    A shallow embedding of [parsers.py]: the text normaliser [clean_text],
    the twelve format parsers and the dispatcher [process_document].

    Python [str] values are modelled as [string]; a character is a code
    point below 256 (the Latin-1 part of Unicode), which is where all the
    characters the code tests for (newline, whitespace, the dot and the
    slash of a path, the letters of [.csv] and [.md]) live.

    The libraries the code calls (libmagic, pdfplumber, pytesseract,
    openpyxl, ...) are oracles gathered in a record [World]; every call
    that matters to the dispatcher or to the PDF parser leaves an [event]
    in the trace of the computation.

    The endpoint that calls the dispatcher, [extract_text] of
    [app/routers/v1/ocr.py], is embedded in the module [Ocr], over a
    record [ApiWorld] that adds the temporary file, the database session
    and the clock. *)

From Stdlib Require Import Ascii String ZArith Lia DecimalString.
From stdpp Require Import gmap strings list.

(** ** Characters and literals *)

Definition LF : ascii := "010"%char.
Definition TAB : ascii := "009"%char.
Definition CR : ascii := "013"%char.
Definition nl : string := String LF "".
Definition tab : string := String TAB "".

(** Reads a literal the way Python reads a string literal, for the three
    escapes used in the examples: backslash-n, backslash-t, backslash-r. *)
Fixpoint lit (s : string) : string :=
  match s with
  | "" => ""
  | String c r =>
      match r with
      | String d r' =>
          if Ascii.eqb c "\"%char then
            if Ascii.eqb d "n"%char then String LF (lit r')
            else if Ascii.eqb d "t"%char then String TAB (lit r')
            else if Ascii.eqb d "r"%char then String CR (lit r')
            else String c (lit r)
          else String c (lit r)
      | "" => String c ""
      end
  end.

(** [c.isspace()] for a code point below 256: the characters that
    [str.strip()] removes. *)
Definition is_space (c : ascii) : bool :=
  let n := nat_of_ascii c in
  ((9 <=? n) && (n <=? 13)) || ((28 <=? n) && (n <=? 32))
  || (n =? 133) || (n =? 160).

Definition is_nl (c : ascii) : bool := Ascii.eqb c LF.

(** ** The text normaliser *)

(** [re.sub(r'\n+', '\n', text)]: every maximal run of newlines is
    replaced by one newline. *)
Fixpoint collapse_newlines (s : string) : string :=
  match s with
  | "" => ""
  | String c r =>
      if is_nl c then
        match r with
        | String d _ => if is_nl d then collapse_newlines r
                        else String c (collapse_newlines r)
        | "" => String c ""
        end
      else String c (collapse_newlines r)
  end.

(** [text.split('\n')]: the pieces between newlines; never an empty list. *)
Fixpoint split_nl (s : string) : list string :=
  match s with
  | "" => [""]
  | String c r =>
      if is_nl c then "" :: split_nl r
      else match split_nl r with
           | l :: ls => String c l :: ls
           | [] => [String c ""]
           end
  end.

(** [sep.join(parts)] *)
Definition join (sep : string) (parts : list string) : string :=
  String.concat sep parts.

Fixpoint lstrip (s : string) : string :=
  match s with
  | "" => ""
  | String c r => if is_space c then lstrip r else s
  end.

Fixpoint rstrip (s : string) : string :=
  match s with
  | "" => ""
  | String c r =>
      match rstrip r with
      | "" => if is_space c then "" else String c ""
      | r' => String c r'
      end
  end.

(** [s.strip()] *)
Definition strip (s : string) : string := rstrip (lstrip s).

Definition clean_text (text : string) : string :=
  let text := collapse_newlines text in
  let text := join nl (map strip (split_nl text)) in
  strip text.

(** ** Exceptions, results and the trace monad *)

(** The exceptions of [parsers.py]. [LibError msg] stands for any exception
    (a subclass of [Exception]) raised inside a library call, [msg] being
    what [str(e)] gives. *)
Inductive exn : Type :=
| LibError (msg : string)
| ParsingError (msg : string)
| UnsupportedFileType (msg : string).

(** [str(e)], as interpolated by [f"...{e}"]. *)
Definition exn_str (e : exn) : string :=
  match e with
  | LibError m | ParsingError m | UnsupportedFileType m => m
  end.

Inductive result (A : Type) : Type :=
| Ok (a : A)
| Raised (e : exn).
Arguments Ok {A} a.
Arguments Raised {A} e.

(** The parser functions as first-class values (what the dispatch table
    holds). *)
Inductive parser : Type :=
| Parse_pdf | Parse_docx | Parse_xlsx | Parse_pptx | Parse_text | Parse_csv
| Parse_odt | Parse_rtf | Parse_html | Parse_image | Parse_epub
| Parse_markdown.

(** A rasterised page, as handed to the OCR engine. *)
Definition image : Type := nat.

(** [pytesseract.image_to_string] takes a file path or an image. *)
Inductive ocr_source : Type :=
| OcrPath (path : string)
| OcrImage (im : image).

Inductive event : Type :=
| EvGetsize (path : string)          (* os.path.getsize(path) *)
| EvSniff (path : string)            (* magic.from_file(path, mime=True) *)
| EvCall (p : parser) (path : string) (* parser(file_path) *)
| EvExtractText (page : nat)         (* page.extract_text() *)
| EvToImage (page : nat)             (* page.to_image() *)
| EvOcr (src : ocr_source).          (* pytesseract.image_to_string(src) *)

(** A computation yields the events it emitted, in order, and either a
    value or the exception that stopped it. *)
Definition M (A : Type) : Type := (list event * result A)%type.

Definition ret {A} (a : A) : M A := ([], Ok a).
Definition raise {A} (e : exn) : M A := ([], Raised e).

Definition bind {A B} (m : M A) (k : A -> M B) : M B :=
  match m with
  | (tr, Ok a) => let '(tr', r) := k a in (tr ++ tr', r)
  | (tr, Raised e) => (tr, Raised e)
  end.

(** A library call that is logged. *)
Definition call {A} (ev : event) (r : result A) : M A := ([ev], r).

(** A library call that is not logged. *)
Definition lift {A} (r : result A) : M A := ([], r).

(** [try: body  except Exception as e: handler(e)] *)
Definition try_except {A} (body : M A) (handler : exn -> M A) : M A :=
  match body with
  | (tr, Ok a) => (tr, Ok a)
  | (tr, Raised e) => let '(tr', r) := handler e in (tr ++ tr', r)
  end.

Notation "'let*' x ':=' m 'in' k" := (bind m (fun x => k))
  (at level 10, x name, m at level 100, k at level 200).

Definition trace {A} (m : M A) : list event := fst m.
Definition outcome {A} (m : M A) : result A := snd m.

(** ** The libraries, as oracles *)

(** A page of an opened PDF: what [extract_text()] gives ([None] or a
    string, or an exception) and what [to_image()] gives. *)
Record Page : Type := {
  extract_text : result (option string);
  to_image : result image;
}.

(** [cell.value] of a worksheet cell. [COther truth repr] is any other
    value (float, date, ...), given by its truth value and its [str()]. *)
Inductive cell_value : Type :=
| CNone
| CStr (s : string)
| CInt (z : Z)
| CBool (b : bool)
| COther (truth : bool) (repr : string).

(** An item of an EPUB book. *)
Record epub_item : Type := {
  is_document : bool;      (* item.get_type() == ebooklib.ITEM_DOCUMENT *)
  get_content : string;    (* item.get_content() *)
}.

Record World : Type := {
  os_path_getsize : string -> result Z;
  magic_from_file : string -> result string;
  (* pdfplumber.open(path).pages *)
  pdfplumber_pages : string -> result (list Page);
  image_to_string : ocr_source -> result string;
  (* [para.text for para in docx.Document(path).paragraphs] *)
  docx_paragraphs : string -> result (list string);
  (* cell values by sheet, row, column of openpyxl.load_workbook(path) *)
  load_workbook : string -> result (list (list (list cell_value)));
  (* by slide, the shapes: Some text when the shape has a text attribute *)
  pptx_shapes : string -> result (list (list (option string)));
  (* open(path, "r", encoding="utf-8").read() *)
  read_utf8 : string -> result string;
  (* list(csv.reader(open(path, "r", encoding="utf-8"))) *)
  csv_reader : string -> result (list (list string));
  (* [teletype.extractText(e) for e in load(path).getElementsByType(text.P)] *)
  odt_paragraphs : string -> result (list string);
  (* open(path, "r").read() *)
  read_default : string -> result string;
  rtf_to_text : string -> result string;
  (* BeautifulSoup(markup, "html.parser").get_text() *)
  soup_get_text : string -> result string;
  (* epub.read_epub(path).get_items() *)
  epub_items : string -> result (list epub_item);
  (* MarkdownIt().render(source) *)
  markdown_render : string -> result string;
}.

(** ** Python truth values and [str()] *)

Definition str_truth (s : string) : bool :=
  match s with "" => false | _ => true end.

(** Truth value of an [Optional[str]]: [None] and the empty string are
    false. *)
Definition opt_str_truth (o : option string) : bool :=
  match o with None => false | Some s => str_truth s end.

Definition cell_truth (v : cell_value) : bool :=
  match v with
  | CNone => false
  | CStr s => str_truth s
  | CInt z => negb (z =? 0)%Z
  | CBool b => b
  | COther t _ => t
  end.

Definition str_of_Z (z : Z) : string := NilZero.string_of_int (Z.to_int z).

Definition cell_str (v : cell_value) : string :=
  match v with
  | CNone => "None"
  | CStr s => s
  | CInt z => str_of_Z z
  | CBool true => "True"
  | CBool false => "False"
  | COther _ r => r
  end.

(** ** The format parsers

    Each parser is [try: body except Exception as e: raise ParsingError];
    the body is given first, then the parser. *)

Definition parsing_error {A} (format : string) (e : exn) : M A :=
  raise (ParsingError ("Error parsing " +:+ format +:+ ": " +:+ exn_str e)).

(** The loop over [pdf.pages]; [i] is the index of the first page of
    [pages] in the document, [text] the accumulator. *)
Fixpoint pdf_loop (w : World) (i : nat) (pages : list Page) (text : string)
  : M string :=
  match pages with
  | [] => ret text
  | page :: rest =>
      let* page_text := call (EvExtractText i) (extract_text page) in
      if opt_str_truth page_text then
        pdf_loop w (S i) rest (text +:+ default "" page_text +:+ nl)
      else
        (* if no text is extracted, use OCR *)
        let* im := call (EvToImage i) (to_image page) in
        let* ocr := call (EvOcr (OcrImage im)) (image_to_string w (OcrImage im)) in
        pdf_loop w (S i) rest (text +:+ ocr +:+ nl)
  end.

Definition parse_pdf_body (w : World) (file_path : string) : M string :=
  let* pages := lift (pdfplumber_pages w file_path) in
  pdf_loop w 0 pages "".

Definition parse_pdf (w : World) (file_path : string) : M string :=
  try_except (parse_pdf_body w file_path) (parsing_error "PDF").

Definition parse_docx_body (w : World) (file_path : string) : M string :=
  let* paras := lift (docx_paragraphs w file_path) in
  ret (join nl paras).

Definition parse_docx (w : World) (file_path : string) : M string :=
  try_except (parse_docx_body w file_path) (parsing_error "DOCX").

(** One row: ["\t".join([str(cell.value) for cell in row if cell.value])] *)
Definition xlsx_row (row : list cell_value) : string :=
  join tab (map cell_str (List.filter cell_truth row)).

Fixpoint xlsx_rows (rows : list (list cell_value)) (text : string) : string :=
  match rows with
  | [] => text
  | row :: rest => xlsx_rows rest (text +:+ xlsx_row row +:+ nl)
  end.

Fixpoint xlsx_sheets (sheets : list (list (list cell_value))) (text : string)
  : string :=
  match sheets with
  | [] => text
  | sheet :: rest => xlsx_sheets rest (xlsx_rows sheet text)
  end.

Definition parse_xlsx_body (w : World) (file_path : string) : M string :=
  let* workbook := lift (load_workbook w file_path) in
  ret (xlsx_sheets workbook "").

Definition parse_xlsx (w : World) (file_path : string) : M string :=
  try_except (parse_xlsx_body w file_path) (parsing_error "XLSX").

Fixpoint pptx_slide (shapes : list (option string)) (text : string) : string :=
  match shapes with
  | [] => text
  | Some t :: rest => pptx_slide rest (text +:+ t +:+ nl)
  | None :: rest => pptx_slide rest text
  end.

Fixpoint pptx_slides (slides : list (list (option string))) (text : string)
  : string :=
  match slides with
  | [] => text
  | slide :: rest => pptx_slides rest (pptx_slide slide text)
  end.

Definition parse_pptx_body (w : World) (file_path : string) : M string :=
  let* slides := lift (pptx_shapes w file_path) in
  ret (pptx_slides slides "").

Definition parse_pptx (w : World) (file_path : string) : M string :=
  try_except (parse_pptx_body w file_path) (parsing_error "PPTX").

Definition parse_text_body (w : World) (file_path : string) : M string :=
  lift (read_utf8 w file_path).

Definition parse_text (w : World) (file_path : string) : M string :=
  try_except (parse_text_body w file_path) (parsing_error "text file").

Definition parse_csv_body (w : World) (file_path : string) : M string :=
  let* rows := lift (csv_reader w file_path) in
  ret (join nl (map (join tab) rows)).

Definition parse_csv (w : World) (file_path : string) : M string :=
  try_except (parse_csv_body w file_path) (parsing_error "CSV").

Definition parse_odt_body (w : World) (file_path : string) : M string :=
  let* texts := lift (odt_paragraphs w file_path) in
  ret (join nl texts).

Definition parse_odt (w : World) (file_path : string) : M string :=
  try_except (parse_odt_body w file_path) (parsing_error "ODT").

Definition parse_rtf_body (w : World) (file_path : string) : M string :=
  let* content := lift (read_default w file_path) in
  lift (rtf_to_text w content).

Definition parse_rtf (w : World) (file_path : string) : M string :=
  try_except (parse_rtf_body w file_path) (parsing_error "RTF").

Definition parse_html_body (w : World) (file_path : string) : M string :=
  let* markup := lift (read_utf8 w file_path) in
  lift (soup_get_text w markup).

Definition parse_html (w : World) (file_path : string) : M string :=
  try_except (parse_html_body w file_path) (parsing_error "HTML").

Definition parse_image_body (w : World) (file_path : string) : M string :=
  call (EvOcr (OcrPath file_path)) (image_to_string w (OcrPath file_path)).

Definition parse_image (w : World) (file_path : string) : M string :=
  try_except (parse_image_body w file_path) (parsing_error "image").

Fixpoint epub_loop (w : World) (items : list epub_item) (text : string)
  : M string :=
  match items with
  | [] => ret text
  | item :: rest =>
      if is_document item then
        let* t := lift (soup_get_text w (get_content item)) in
        epub_loop w rest (text +:+ t +:+ nl)
      else epub_loop w rest text
  end.

Definition parse_epub_body (w : World) (file_path : string) : M string :=
  let* items := lift (epub_items w file_path) in
  epub_loop w items "".

Definition parse_epub (w : World) (file_path : string) : M string :=
  try_except (parse_epub_body w file_path) (parsing_error "EPUB").

Definition parse_markdown_body (w : World) (file_path : string) : M string :=
  let* source := lift (read_utf8 w file_path) in
  let* html := lift (markdown_render w source) in
  lift (soup_get_text w html).

Definition parse_markdown (w : World) (file_path : string) : M string :=
  try_except (parse_markdown_body w file_path) (parsing_error "Markdown").

(** The function a [parser] value denotes, its body and the format name
    of its error message. *)
Definition parser_body (p : parser) : World -> string -> M string :=
  match p with
  | Parse_pdf => parse_pdf_body | Parse_docx => parse_docx_body
  | Parse_xlsx => parse_xlsx_body | Parse_pptx => parse_pptx_body
  | Parse_text => parse_text_body | Parse_csv => parse_csv_body
  | Parse_odt => parse_odt_body | Parse_rtf => parse_rtf_body
  | Parse_html => parse_html_body | Parse_image => parse_image_body
  | Parse_epub => parse_epub_body | Parse_markdown => parse_markdown_body
  end.

Definition parser_fn (p : parser) : World -> string -> M string :=
  match p with
  | Parse_pdf => parse_pdf | Parse_docx => parse_docx
  | Parse_xlsx => parse_xlsx | Parse_pptx => parse_pptx
  | Parse_text => parse_text | Parse_csv => parse_csv
  | Parse_odt => parse_odt | Parse_rtf => parse_rtf
  | Parse_html => parse_html | Parse_image => parse_image
  | Parse_epub => parse_epub | Parse_markdown => parse_markdown
  end.

Definition format_name (p : parser) : string :=
  match p with
  | Parse_pdf => "PDF" | Parse_docx => "DOCX" | Parse_xlsx => "XLSX"
  | Parse_pptx => "PPTX" | Parse_text => "text file" | Parse_csv => "CSV"
  | Parse_odt => "ODT" | Parse_rtf => "RTF" | Parse_html => "HTML"
  | Parse_image => "image" | Parse_epub => "EPUB"
  | Parse_markdown => "Markdown"
  end.

(** ** Paths: [os.path.splitext] and [str.lower] *)

Fixpoint rfind_aux (c : ascii) (s : string) (i : Z) (found : Z) : Z :=
  match s with
  | "" => found
  | String d r => rfind_aux c r (i + 1) (if Ascii.eqb d c then i else found)
  end.

(** [s.rfind(c)]: the index of the last [c] in [s], or -1. *)
Definition rfind (c : ascii) (s : string) : Z := rfind_aux c s 0 (-1).

(** The loop of [genericpath._splitext] that skips the leading dots of
    the file name: true when a character other than the dot is met at an
    index from [filenameIndex] on, among the next [n] indices. *)
Fixpoint splitext_scan (p : string) (filenameIndex n : nat) : bool :=
  match n with
  | 0 => false
  | S n' =>
      match String.get filenameIndex p with
      | Some c => if Ascii.eqb c "."%char
                  then splitext_scan p (S filenameIndex) n'
                  else true
      | None => true
      end
  end.

(** [os.path.splitext(p)] on a POSIX system. *)
Definition splitext (p : string) : string * string :=
  let sepIndex := rfind "/"%char p in
  let dotIndex := rfind "."%char p in
  if (sepIndex <? dotIndex)%Z then
    if splitext_scan p (Z.to_nat (sepIndex + 1))
         (Z.to_nat (dotIndex - (sepIndex + 1)))
    then (String.substring 0 (Z.to_nat dotIndex) p,
          String.substring (Z.to_nat dotIndex)
            (String.length p - Z.to_nat dotIndex) p)
    else (p, "")
  else (p, "").

(** [c.lower()] for a code point below 256. *)
Definition lower_char (c : ascii) : ascii :=
  let n := nat_of_ascii c in
  if ((65 <=? n) && (n <=? 90))
     || ((192 <=? n) && (n <=? 222) && negb (n =? 215))
  then ascii_of_nat (n + 32) else c.

Fixpoint lower (s : string) : string :=
  match s with
  | "" => ""
  | String c r => String (lower_char c) (lower r)
  end.

(** ** The dispatcher *)

Definition parser_dispatcher_mime : gmap string parser :=
  <["application/pdf" := Parse_pdf]>
  (<["image/jpeg" := Parse_image]>
  (<["image/png" := Parse_image]>
  (<["image/tiff" := Parse_image]>
  (<["application/vnd.openxmlformats-officedocument.wordprocessingml.document" := Parse_docx]>
  (<["application/vnd.openxmlformats-officedocument.spreadsheetml.sheet" := Parse_xlsx]>
  (<["application/vnd.openxmlformats-officedocument.presentationml.presentation" := Parse_pptx]>
  (<["text/plain" := Parse_text]>
  (<["text/csv" := Parse_csv]>
  (<["application/vnd.oasis.opendocument.text" := Parse_odt]>
  (<["application/rtf" := Parse_rtf]>
  (<["text/rtf" := Parse_rtf]>
  (<["text/html" := Parse_html]>
  (<["application/epub+zip" := Parse_epub]>
  (<["text/markdown" := Parse_markdown]> ∅)))))))))))))).

(** The choice of the parser and of the reported type (lines 205-218):
    the fallback for ambiguous text types, else the table. *)
Definition select_parser (mime_type file_extension : string)
  : option parser * string :=
  if String.eqb mime_type "text/plain" then
    if String.eqb file_extension ".csv" then (Some Parse_csv, "text/csv")
    else if String.eqb file_extension ".md"
         then (Some Parse_markdown, "text/markdown")
         else (Some Parse_text, mime_type)
  else (parser_dispatcher_mime !! mime_type, mime_type).

(** [os.path.splitext(file_path)[1].lower()] *)
Definition file_extension_of (file_path : string) : string :=
  lower (snd (splitext file_path)).

Definition process_document (w : World) (file_path : string)
  : M (string * string) :=
  let* size := call (EvGetsize file_path) (os_path_getsize w file_path) in
  if (size =? 0)%Z then ret ("", "inode/x-empty")
  else
    let* mime_type := call (EvSniff file_path) (magic_from_file w file_path) in
    let file_extension := file_extension_of file_path in
    let '(parser, mime_type) := select_parser mime_type file_extension in
    match parser with
    | Some p =>
        let* raw_text := bind (call (EvCall p file_path) (Ok tt))
                           (fun _ => parser_fn p w file_path) in
        let cleaned_text := clean_text raw_text in
        ret (cleaned_text, mime_type)
    | None =>
        raise (UnsupportedFileType ("Unsupported file type: " +:+ mime_type))
    end.

(** ** A sample world

    A handful of files, used to run the definitions on concrete inputs. *)

Definition no_such_file {A} : result A :=
  Raised (LibError "No such file or directory").

Definition sample_pages : list Page :=
  [ {| extract_text := Ok (Some "Hello"); to_image := Ok 0 |};
    {| extract_text := Ok (Some ""); to_image := Ok 1 |};
    {| extract_text := Ok (Some " ."); to_image := Ok 2 |};
    {| extract_text := Ok None; to_image := Ok 3 |} ].

Definition sample_sniff (p : string) : string :=
  if String.eqb p "/tmp/scan.pdf" then "application/pdf"
  else if String.eqb p "/tmp/broken.pdf" then "application/pdf"
  else if String.eqb p "/tmp/archive.zip" then "application/zip"
  else if String.eqb p "/tmp/book.xlsx"
  then "application/vnd.openxmlformats-officedocument.spreadsheetml.sheet"
  else "text/plain".

Definition sample_world : World := {|
  os_path_getsize p :=
    if String.eqb p "/tmp/empty.pdf" then Ok 0%Z else Ok 12%Z;
  magic_from_file p := Ok (sample_sniff p);
  pdfplumber_pages p :=
    if String.eqb p "/tmp/scan.pdf" then Ok sample_pages
    else Raised (LibError "No /Root object! - Is this really a PDF?");
  image_to_string src :=
    match src with
    | OcrImage 1 => Ok "scanned one"
    | OcrImage 3 => Ok "scanned three"
    | _ => Raised (LibError "cannot identify image file")
    end;
  docx_paragraphs _ := no_such_file;
  load_workbook p :=
    if String.eqb p "/tmp/book.xlsx"
    then Ok [[[CInt 1; CInt 0; CInt 2]; [CStr "x"; CNone; CStr "y"]];
             [[CBool true]]]
    else no_such_file;
  pptx_shapes _ := no_such_file;
  read_utf8 _ := Ok (lit "a,b\n1,2\n");
  csv_reader _ := Ok [["a"; "b"]; ["1"; "2"]];
  odt_paragraphs _ := no_such_file;
  read_default _ := no_such_file;
  rtf_to_text _ := no_such_file;
  soup_get_text s := Ok s;
  epub_items _ := no_such_file;
  markdown_render s := Ok ("<p>" +:+ s +:+ "</p>");
|}.

(** A world in which every file has [size] bytes, sniffs as [mime] and
    parses to the empty text, whatever the parser. *)
Definition blank_world (size : Z) (mime : string) : World := {|
  os_path_getsize _ := Ok size;
  magic_from_file _ := Ok mime;
  pdfplumber_pages _ := Ok [];
  image_to_string _ := Ok "";
  docx_paragraphs _ := Ok [];
  load_workbook _ := Ok [];
  pptx_shapes _ := Ok [];
  read_utf8 _ := Ok "";
  csv_reader _ := Ok [];
  odt_paragraphs _ := Ok [];
  read_default _ := Ok "";
  rtf_to_text _ := Ok "";
  soup_get_text _ := Ok "";
  epub_items _ := Ok [];
  markdown_render _ := Ok "";
|}.

(** ** Vocabulary of the statements *)

(** The type [process_document] resolves for a file sniffed as [mime]. *)
Definition resolved_type (mime file_path : string) : string :=
  snd (select_parser mime (file_extension_of file_path)).

(** [process_document] sizes and sniffs the file, calls parser [p] on it,
    and reports [mime_type] with the cleaned text when the parser returns,
    or lets the parser's exception through. *)
Definition invokes (w : World) (file_path : string) (p : parser)
  (mime_type : string) : Prop :=
  trace (process_document w file_path)
  = [EvGetsize file_path; EvSniff file_path; EvCall p file_path]
    ++ trace (parser_fn p w file_path)
  /\ outcome (process_document w file_path)
     = match outcome (parser_fn p w file_path) with
       | Ok raw_text => Ok (clean_text raw_text, mime_type)
       | Raised e => Raised e
       end.

(** [process_document] sizes and sniffs the file and raises
    [UnsupportedFileType] naming [mime_type], calling no parser. *)
Definition rejects (w : World) (file_path mime_type : string) : Prop :=
  process_document w file_path
  = ([EvGetsize file_path; EvSniff file_path],
     Raised (UnsupportedFileType ("Unsupported file type: " +:+ mime_type))).

(** The fifteen types of the contract list that have a parser, and the
    whole list with the zero-byte sentinel. *)
Definition registered_mime_types : list string :=
  [ "application/pdf"; "image/jpeg"; "image/png"; "image/tiff";
    "application/vnd.openxmlformats-officedocument.wordprocessingml.document";
    "application/vnd.openxmlformats-officedocument.spreadsheetml.sheet";
    "application/vnd.openxmlformats-officedocument.presentationml.presentation";
    "text/plain"; "text/csv"; "application/vnd.oasis.opendocument.text";
    "application/rtf"; "text/rtf"; "text/html"; "application/epub+zip";
    "text/markdown" ].

Definition contract_mime_types : list string :=
  registered_mime_types ++ ["inode/x-empty"].

(** Two characters that are equal or are the two cases of one ASCII
    letter, and strings that differ in the case of letters only. *)
Definition same_letter (a b : ascii) : bool :=
  Ascii.eqb a b
  || (let m := nat_of_ascii a in
      let n := nat_of_ascii b in
      ((65 <=? m) && (m <=? 90) && (n =? m + 32))
      || ((65 <=? n) && (n <=? 90) && (m =? n + 32))).

Fixpoint case_variant (s t : string) : bool :=
  match s, t with
  | "", "" => true
  | String a s', String b t' => same_letter a b && case_variant s' t'
  | _, _ => false
  end.

Fixpoint occurs (c : ascii) (s : string) : bool :=
  match s with
  | "" => false
  | String d r => Ascii.eqb d c || occurs c r
  end.

(** A string with a character other than the dot. *)
Fixpoint has_non_dot (s : string) : bool :=
  match s with
  | "" => false
  | String d r => negb (Ascii.eqb d "."%char) || has_non_dot r
  end.

(** Every part followed by a newline, in order. *)
Fixpoint newline_terminated (parts : list string) : string :=
  match parts with
  | [] => ""
  | part :: rest => part +:+ nl +:+ newline_terminated rest
  end.

(** The text layer of a page; [None] counts as empty. *)
Definition text_layer (page : Page) : string :=
  match extract_text page with
  | Ok (Some t) => t
  | _ => ""
  end.

(** The raster image of a page, and what OCR reads on it. *)
Definition image_of (page : Page) : image :=
  match to_image page with Ok im => im | Raised _ => 0 end.

Definition ocr_text (w : World) (page : Page) : string :=
  match image_to_string w (OcrImage (image_of page)) with
  | Ok t => t
  | Raised _ => ""
  end.

(** The part of the output that a page accounts for: its text layer, or
    the OCR output when the text layer is empty. *)
Definition page_output (w : World) (page : Page) : string :=
  if str_truth (text_layer page) then text_layer page else ocr_text w page.

(** The library calls that a page needs succeed: its text can be
    extracted and, when the text layer is empty, the page can be
    rasterised and read by OCR. *)
Definition page_readable (w : World) (page : Page) : Prop :=
  (exists o, extract_text page = Ok o)
  /\ (text_layer page = "" ->
      exists im t, to_image page = Ok im
                   /\ image_to_string w (OcrImage im) = Ok t).

(** The library calls of the PDF loop on [pages], the first of them being
    page number [i]. *)
Fixpoint pdf_events (i : nat) (pages : list Page) : list event :=
  match pages with
  | [] => []
  | page :: rest =>
      (EvExtractText i ::
         if str_truth (text_layer page) then []
         else [EvToImage i; EvOcr (OcrImage (image_of page))])
      ++ pdf_events (S i) rest
  end.

(** The XLSX rule in the words of the specification: a cell is empty
    when it holds nothing ([None]) or the empty string; a row is the
    tab-joined [str()] of its non-empty cells, in column order; rows
    follow one another in sheet order then row order, each followed by a
    newline. *)
Definition cell_non_empty (v : cell_value) : bool :=
  match v with
  | CNone | CStr "" => false
  | _ => true
  end.

Definition xlsx_row_spec (row : list cell_value) : string :=
  join tab (map cell_str (List.filter cell_non_empty row)).

Definition xlsx_text_spec (workbook : list (list (list cell_value))) : string :=
  newline_terminated (map xlsx_row_spec (concat workbook)).

(** A string that starts, or ends, with a whitespace character. *)
Definition starts_with_space (s : string) : bool :=
  match s with
  | "" => false
  | String c _ => is_space c
  end.

Fixpoint ends_with_space (s : string) : bool :=
  match s with
  | "" => false
  | String c "" => is_space c
  | String _ r => ends_with_space r
  end.

(** No leading and no trailing whitespace. *)
Definition trimmed (s : string) : Prop :=
  starts_with_space s = false /\ ends_with_space s = false.

(** The lines left when the empty lines at the start, or at the end, of
    a list of lines are dropped. *)
Fixpoint drop_leading_empty (ls : list string) : list string :=
  match ls with
  | "" :: rest => drop_leading_empty rest
  | _ => ls
  end.

Fixpoint drop_trailing_empty (ls : list string) : list string :=
  match ls with
  | [] => []
  | l :: rest =>
      match drop_trailing_empty rest with
      | [] => match l with "" => [] | _ => [l] end
      | rest' => l :: rest'
      end
  end.

(** The lines that [clean_text] puts out: the stripped lines of the
    collapsed text, without the empty ones at both ends. *)
Definition clean_lines (s : string) : list string :=
  drop_trailing_empty
    (drop_leading_empty (map strip (split_nl (collapse_newlines s)))).

(** The lines that are not empty. *)
Definition non_empty_lines (ls : list string) : list string :=
  List.filter str_truth ls.

Fixpoint ends_with_nl (s : string) : bool :=
  match s with
  | "" => false
  | String c "" => is_nl c
  | String _ r => ends_with_nl r
  end.

(** The characters of a string that are not whitespace, in order. *)
Fixpoint visible (s : string) : string :=
  match s with
  | "" => ""
  | String c r => if is_space c then visible r else String c (visible r)
  end.

(** All the strings of a list, one after the other. *)
Fixpoint concat_strings (ls : list string) : string :=
  match ls with
  | [] => ""
  | l :: rest => l +:+ concat_strings rest
  end.

(** The exception that stops the PDF loop on a page, if any: from the
    text extraction, or, when the text layer is empty, from the
    rasterisation or from OCR. *)
Definition page_failure (w : World) (page : Page) : option exn :=
  match extract_text page with
  | Raised e => Some e
  | Ok o =>
      if opt_str_truth o then None
      else match to_image page with
           | Raised e => Some e
           | Ok im =>
               match image_to_string w (OcrImage im) with
               | Raised e => Some e
               | Ok _ => None
               end
           end
  end.

(** The library calls made on page [i] up to the call that fails. *)
Definition failing_page_events (i : nat) (page : Page) : list event :=
  match extract_text page with
  | Raised _ => [EvExtractText i]
  | Ok _ =>
      match to_image page with
      | Raised _ => [EvExtractText i; EvToImage i]
      | Ok im => [EvExtractText i; EvToImage i; EvOcr (OcrImage im)]
      end
  end.

(** The texts of the shapes that have one, in order. *)
Fixpoint shape_texts (shapes : list (option string)) : list string :=
  match shapes with
  | [] => []
  | Some t :: rest => t :: shape_texts rest
  | None :: rest => shape_texts rest
  end.

(** The visible text of an EPUB item, when its markup can be read. *)
Definition item_text (w : World) (item : epub_item) : string :=
  match soup_get_text w (get_content item) with
  | Ok t => t
  | Raised _ => ""
  end.

(** The sample world with another PDF behind every path: its second page
    has no text layer and its image cannot be read by OCR. *)
Definition damaged_pages : list Page :=
  [ {| extract_text := Ok (Some "Hello"); to_image := Ok 0 |};
    {| extract_text := Ok None; to_image := Ok 7 |};
    {| extract_text := Ok (Some "Bye"); to_image := Ok 2 |} ].

Definition damaged_world : World := {|
  os_path_getsize := os_path_getsize sample_world;
  magic_from_file p :=
    if String.eqb p "/tmp/report.docx"
    then Ok "application/vnd.openxmlformats-officedocument.wordprocessingml.document"
    else magic_from_file sample_world p;
  pdfplumber_pages _ := Ok damaged_pages;
  image_to_string := image_to_string sample_world;
  docx_paragraphs _ := Ok ["Title"; ""; "First paragraph."; ""];
  load_workbook p :=
    if String.eqb p "/tmp/clean.xlsx"
    then Ok [[[CStr "name"; CInt 3]; [CNone; CStr "y"]]]
    else load_workbook sample_world p;
  pptx_shapes _ := Ok [[Some "Slide one"; None]; []; [Some "Slide three"]];
  read_utf8 := read_utf8 sample_world;
  csv_reader := csv_reader sample_world;
  odt_paragraphs := odt_paragraphs sample_world;
  read_default := read_default sample_world;
  rtf_to_text := rtf_to_text sample_world;
  soup_get_text s :=
    if String.eqb s "<bad" then Raised (LibError "malformed start tag")
    else Ok s;
  epub_items p :=
    if String.eqb p "/tmp/bad.epub"
    then Ok [ {| is_document := true; get_content := "Chapter 1" |};
              {| is_document := true; get_content := "<bad" |};
              {| is_document := true; get_content := "Chapter 3" |} ]
    else Ok [ {| is_document := true; get_content := "Chapter 1" |};
              {| is_document := false; get_content := "cover.png" |};
              {| is_document := true; get_content := "Chapter 2" |} ];
  markdown_render := markdown_render sample_world;
|}.

(** The types for which the table gives the image parser. *)
Definition image_mime_types : list string :=
  ["image/jpeg"; "image/png"; "image/tiff"].

(** ** The extraction endpoint (app/routers/v1/ocr.py)

    [extract_text], the caller of [process_document]. The upload, the
    temporary file, the clock and the database session are oracles of an
    [ApiWorld]; the user is the one the authentication dependency
    resolved. *)

Module Ocr.

(** A Python float, by its 64 bits; no arithmetic is done on it. *)
Inductive pyfloat : Type := Float64 (bits : Z).

(** What the endpoint raises: an exception of [parsers.py] or of a
    library, or an [HTTPException]. *)
Inductive api_exn : Type :=
| Core (e : exn)
| HTTPException (status_code : Z) (detail : string).

Inductive api_result (A : Type) : Type :=
| Returned (a : A)
| Thrown (e : api_exn).
Arguments Returned {A} a.
Arguments Thrown {A} e.

(** The fields of [UsageLog] that the endpoint sets. *)
Record UsageLog : Type := {
  log_user_id : string;
  log_endpoint : string;
  log_file_type : option string;
  log_file_size : Z;
  log_processing_time : option pyfloat;
  log_status_code : Z;
  log_error_message : option string;
}.

Record OCRResponse : Type := {
  filename : option string;
  mime_type : string;
  content : string;
  file_size : Z;
  processing_time : pyfloat;
}.

(** An [UploadFile]: its name and the bytes that [file.read()] gives. *)
Record Upload : Type := {
  upload_filename : option string;
  upload_content : string;
}.

Inductive api_event : Type :=
| ApiCore (ev : event)                 (* a call made by process_document *)
| ApiTempCreate (suffix : string)      (* tempfile.NamedTemporaryFile(...) *)
| ApiTempWrite (path content : string) (* temp_file.write(file_content) *)
| ApiTempClose (path : string)         (* the end of the with block *)
| ApiCommit (log : UsageLog)           (* db.add(log); await db.commit() *)
| ApiExists (path : string)            (* os.path.exists(path) *)
| ApiUnlink (path : string).           (* os.unlink(path) *)

Record ApiWorld : Type := {
  core : World;
  (* settings.MAX_FILE_SIZE *)
  MAX_FILE_SIZE : Z;
  (* the name of the file that NamedTemporaryFile(delete=False, suffix) makes *)
  named_temporary_file : string -> result string;
  temp_write : string -> string -> result unit;
  temp_close : string -> result unit;
  (* time.time() - start_time *)
  elapsed : pyfloat;
  db_commit : UsageLog -> result unit;
  path_exists : string -> bool;
  os_unlink : string -> result unit;
}.

Definition usage_log (current_user : string) (file_type : option string)
  (file_size : Z) (processing_time : option pyfloat) (status_code : Z)
  (error_message : option string) : UsageLog :=
  {| log_user_id := current_user;
     log_endpoint := "/api/v1/ocr/extract";
     log_file_type := file_type;
     log_file_size := file_size;
     log_processing_time := processing_time;
     log_status_code := status_code;
     log_error_message := error_message |}.

(** The [with tempfile.NamedTemporaryFile(...)] block: the events, the
    value of [temp_file_path] at its end and its result. A failed write
    leaves [temp_file_path] unset; the file is closed on the way out in
    any case. *)
Definition write_temp_file (w : ApiWorld) (file : Upload)
  : list api_event * option string * result string :=
  match upload_filename file with
  | None =>
      (* os.path.splitext(None) *)
      ([], None,
       Raised (LibError
                 "expected str, bytes or os.PathLike object, not NoneType"))
  | Some name =>
      let suffix := snd (splitext name) in
      match named_temporary_file w suffix with
      | Raised e => ([ApiTempCreate suffix], None, Raised e)
      | Ok temp_name =>
          let file_content := upload_content file in
          match temp_write w temp_name file_content with
          | Raised e =>
              ([ApiTempCreate suffix; ApiTempWrite temp_name file_content;
                ApiTempClose temp_name],
               None,
               match temp_close w temp_name with
               | Raised e' => Raised e'
               | Ok _ => Raised e
               end)
          | Ok _ =>
              ([ApiTempCreate suffix; ApiTempWrite temp_name file_content;
                ApiTempClose temp_name],
               Some temp_name,
               match temp_close w temp_name with
               | Raised e => Raised e
               | Ok _ => Ok temp_name
               end)
          end
      end
  end.

(** The body of the [try] block. *)
Definition extract_try (w : ApiWorld) (file : Upload) (current_user : string)
  (file_size : Z)
  : list api_event * option string * result OCRResponse :=
  let '(tr, temp_file_path, r) := write_temp_file w file in
  match r with
  | Raised e => (tr, temp_file_path, Raised e)
  | Ok temp_name =>
      let '(tr_doc, r_doc) := process_document (core w) temp_name in
      match r_doc with
      | Raised e => (tr ++ map ApiCore tr_doc, temp_file_path, Raised e)
      | Ok (content, mime_type) =>
          let processing_time := elapsed w in
          let log := usage_log current_user (Some mime_type) file_size
                       (Some processing_time) 200 None in
          (tr ++ map ApiCore tr_doc ++ [ApiCommit log],
           temp_file_path,
           match db_commit w log with
           | Raised e => Raised e
           | Ok _ =>
               Ok {| filename := upload_filename file;
                     mime_type := mime_type;
                     content := content;
                     file_size := file_size;
                     processing_time := processing_time |}
           end)
      end
  end.

(** An [except] clause: log the failed request, then raise the
    [HTTPException]; a failing commit raises instead. *)
Definition log_and_raise {A} (w : ApiWorld) (log : UsageLog)
  (status_code : Z) (detail : string) : list api_event * api_result A :=
  ([ApiCommit log],
   match db_commit w log with
   | Raised e => Thrown (Core e)
   | Ok _ => Thrown (HTTPException status_code detail)
   end).

(** The three [except] clauses. *)
Definition extract_except (w : ApiWorld) (current_user : string)
  (file_size : Z) (e : exn) : list api_event * api_result OCRResponse :=
  match e with
  | UnsupportedFileType m =>
      log_and_raise w
        (usage_log current_user None file_size None 415 (Some (exn_str e)))
        415 "Unsupported file type"
  | ParsingError m =>
      log_and_raise w
        (usage_log current_user None file_size None 422 (Some (exn_str e)))
        422 (exn_str e)
  | LibError m =>
      log_and_raise w
        (usage_log current_user None file_size None 500 (Some (exn_str e)))
        500 "Internal server error"
  end.

(** The [finally] clause. *)
Definition extract_finally (w : ApiWorld) (temp_file_path : option string)
  : list api_event * result unit :=
  match temp_file_path with
  | None => ([], Ok tt)
  | Some path =>
      if str_truth path then
        if path_exists w path
        then ([ApiExists path; ApiUnlink path], os_unlink w path)
        else ([ApiExists path], Ok tt)
      else ([], Ok tt)
  end.

Definition extract_text (w : ApiWorld) (file : Upload) (current_user : string)
  : list api_event * api_result OCRResponse :=
  let file_content := upload_content file in
  let file_size := Z.of_nat (String.length file_content) in
  if (MAX_FILE_SIZE w <? file_size)%Z then
    ([], Thrown (HTTPException 413
                   ("File too large. Maximum size is "
                    +:+ str_of_Z (MAX_FILE_SIZE w) +:+ " bytes")))
  else
    let '(tr, temp_file_path, r) :=
      extract_try w file current_user file_size in
    let '(tr_except, r_except) :=
      match r with
      | Ok response => ([], Returned response)
      | Raised e => extract_except w current_user file_size e
      end in
    let '(tr_finally, r_finally) := extract_finally w temp_file_path in
    (tr ++ tr_except ++ tr_finally,
     match r_finally with
     | Raised e => Thrown (Core e)
     | Ok _ => r_except
     end).

(** The upload is within the size limit and is written to the temporary
    file [temp] without error. *)
Definition staged (w : ApiWorld) (file : Upload) (temp : string) : Prop :=
  (Z.of_nat (String.length (upload_content file)) <= MAX_FILE_SIZE w)%Z
  /\ exists name,
       upload_filename file = Some name
       /\ named_temporary_file w (snd (splitext name)) = Ok temp
       /\ temp_write w temp (upload_content file) = Ok tt
       /\ temp_close w temp = Ok tt.

(** The events of the staging. *)
Definition staging_events (file : Upload) (temp : string) : list api_event :=
  [ApiTempCreate (snd (splitext (default "" (upload_filename file))));
   ApiTempWrite temp (upload_content file); ApiTempClose temp].

(** A world for the endpoint, given what the commits, the write to the
    temporary file and its removal do: temporary files are named as
    [tempfile] names them and the documents are those of the sample
    world. *)
Definition api_world_with (commit : UsageLog -> result unit)
  (write unlink : result unit) : ApiWorld := {|
  core := {|
    os_path_getsize p :=
      if String.eqb p "/tmp/tmpk3v9_x2a" then Ok 0%Z else Ok 12%Z;
    magic_from_file p :=
      if String.eqb p "/tmp/tmpk3v9_x2a.zip" then Ok "application/zip"
      else if String.eqb p "/tmp/tmpk3v9_x2a.pdf" then Ok "application/pdf"
      else Ok "text/plain";
    pdfplumber_pages := pdfplumber_pages sample_world;
    image_to_string := image_to_string sample_world;
    docx_paragraphs := docx_paragraphs sample_world;
    load_workbook := load_workbook sample_world;
    pptx_shapes := pptx_shapes sample_world;
    read_utf8 := read_utf8 sample_world;
    csv_reader := csv_reader sample_world;
    odt_paragraphs := odt_paragraphs sample_world;
    read_default := read_default sample_world;
    rtf_to_text := rtf_to_text sample_world;
    soup_get_text := soup_get_text sample_world;
    epub_items := epub_items sample_world;
    markdown_render := markdown_render sample_world;
  |};
  MAX_FILE_SIZE := 52428800;
  named_temporary_file suffix := Ok ("/tmp/tmpk3v9_x2a" +:+ suffix);
  temp_write _ _ := write;
  temp_close _ := Ok tt;
  elapsed := Float64 4598175219545276416;
  db_commit := commit;
  path_exists _ := true;
  os_unlink _ := unlink;
|}.

Definition sample_api_world : ApiWorld :=
  api_world_with (fun _ => Ok tt) (Ok tt) (Ok tt).

(** The sample world with a limit of two bytes on uploads. *)
Definition tiny_limit_world : ApiWorld := {|
  core := core sample_api_world;
  MAX_FILE_SIZE := 2;
  named_temporary_file := named_temporary_file sample_api_world;
  temp_write := temp_write sample_api_world;
  temp_close := temp_close sample_api_world;
  elapsed := elapsed sample_api_world;
  db_commit := db_commit sample_api_world;
  path_exists := path_exists sample_api_world;
  os_unlink := os_unlink sample_api_world;
|}.

(** An upload of three bytes under a given name. *)
Definition sample_upload (name : string) : Upload :=
  {| upload_filename := Some name; upload_content := "a,b" |}.

End Ocr.

(** A world in which one file is gone and another cannot be read by
    libmagic; everything else is as in the blank world. *)
Definition unreadable_world : World := {|
  os_path_getsize p :=
    if String.eqb p "/tmp/gone.pdf"
    then Raised (LibError "[Errno 2] No such file or directory")
    else Ok 5%Z;
  magic_from_file p :=
    if String.eqb p "/tmp/locked.pdf"
    then Raised (LibError "cannot open (Permission denied)")
    else Ok "application/pdf";
  pdfplumber_pages := pdfplumber_pages (blank_world 5 "application/pdf");
  image_to_string := image_to_string (blank_world 5 "application/pdf");
  docx_paragraphs := docx_paragraphs (blank_world 5 "application/pdf");
  load_workbook := load_workbook (blank_world 5 "application/pdf");
  pptx_shapes := pptx_shapes (blank_world 5 "application/pdf");
  read_utf8 := read_utf8 (blank_world 5 "application/pdf");
  csv_reader := csv_reader (blank_world 5 "application/pdf");
  odt_paragraphs := odt_paragraphs (blank_world 5 "application/pdf");
  read_default := read_default (blank_world 5 "application/pdf");
  rtf_to_text := rtf_to_text (blank_world 5 "application/pdf");
  soup_get_text := soup_get_text (blank_world 5 "application/pdf");
  epub_items := epub_items (blank_world 5 "application/pdf");
  markdown_render := markdown_render (blank_world 5 "application/pdf");
|}.

(** ** Lemmas *)

(** *** Strings *)

Lemma append_nil_l (s : string) : "" +:+ s = s.
Proof. reflexivity. Qed.

Lemma append_cons (c : ascii) (s t : string) :
  String c s +:+ t = String c (s +:+ t).
Proof. reflexivity. Qed.

Lemma append_nil_r (s : string) : s +:+ "" = s.
Proof.
  induction s as [|c s IH]; [done|]. by rewrite append_cons, IH.
Qed.

Lemma append_assoc (s t u : string) : (s +:+ t) +:+ u = s +:+ t +:+ u.
Proof.
  induction s as [|c s IH]; [done|]. by rewrite !append_cons, IH.
Qed.

Lemma str_truth_false (s : string) : str_truth s = false <-> s = "".
Proof. destruct s; cbn; split; congruence. Qed.

Lemma newline_terminated_join (parts : list string) :
  parts <> [] -> newline_terminated parts = join nl parts +:+ nl.
Proof.
  induction parts as [|part rest IH]; [done|]. intros _.
  destruct rest as [|part' rest'].
  - cbn. by rewrite append_nil_r.
  - change (newline_terminated (part :: part' :: rest'))
      with (part +:+ nl +:+ newline_terminated (part' :: rest')).
    rewrite IH by done.
    change (join nl (part :: part' :: rest'))
      with (part +:+ nl +:+ join nl (part' :: rest')).
    by rewrite !append_assoc.
Qed.

(** *** The text normaliser *)

(** [strip] and the edges of a string *)

Lemma lstrip_starts (s : string) : starts_with_space (lstrip s) = false.
Proof.
  induction s as [|c s IH]; [done|]. cbn [lstrip].
  destruct (is_space c) eqn:Hc; [done|]. cbn. exact Hc.
Qed.

Lemma lstrip_id (s : string) : starts_with_space s = false -> lstrip s = s.
Proof. destruct s as [|c s]; [done|]. cbn. by intros ->. Qed.

Lemma rstrip_ends (s : string) : ends_with_space (rstrip s) = false.
Proof.
  induction s as [|c s IH]; [done|]. cbn [rstrip].
  destruct (rstrip s) as [|d r] eqn:Hr.
  - destruct (is_space c) eqn:Hc; [done|]. cbn. exact Hc.
  - exact IH.
Qed.

Lemma rstrip_id (s : string) : ends_with_space s = false -> rstrip s = s.
Proof.
  induction s as [|c s IH]; [done|]. cbn [ends_with_space rstrip].
  destruct s as [|d r].
  - cbn. by intros ->.
  - intros H. by rewrite (IH H).
Qed.

Lemma rstrip_starts (s : string) :
  starts_with_space s = false -> starts_with_space (rstrip s) = false.
Proof.
  destruct s as [|c s]; [done|]. cbn [starts_with_space rstrip].
  intros Hc. destruct (rstrip s); [by rewrite Hc | done].
Qed.

Lemma strip_trimmed (s : string) : trimmed (strip s).
Proof.
  split; [apply rstrip_starts, lstrip_starts | apply rstrip_ends].
Qed.

Lemma trimmed_strip (s : string) : trimmed s -> strip s = s.
Proof.
  intros [Hstart Hend]. unfold strip. by rewrite lstrip_id, rstrip_id.
Qed.

Lemma strip_strip (s : string) : strip (strip s) = strip s.
Proof. apply trimmed_strip, strip_trimmed. Qed.

(** The whole output of [clean_text] has no leading and no trailing
    whitespace. *)
Lemma clean_text_trimmed (s : string) : trimmed (clean_text s).
Proof. apply strip_trimmed. Qed.

(** *** Lines *)

Lemma join_cons (l l' : string) (rest : list string) :
  join nl (l :: l' :: rest) = l +:+ nl +:+ join nl (l' :: rest).
Proof. reflexivity. Qed.

Lemma join_cons_nonempty (l : string) (rest : list string) :
  rest <> [] -> join nl (l :: rest) = l +:+ nl +:+ join nl rest.
Proof. destruct rest; [done|]. intros _. apply join_cons. Qed.

Lemma occurs_lstrip (c : ascii) (s : string) :
  occurs c s = false -> occurs c (lstrip s) = false.
Proof.
  induction s as [|d s IH]; [done|]. cbn [lstrip].
  destruct (is_space d); [|done].
  cbn [occurs]. intros [_ H]%orb_false_elim. by apply IH.
Qed.

Lemma occurs_rstrip (c : ascii) (s : string) :
  occurs c s = false -> occurs c (rstrip s) = false.
Proof.
  induction s as [|d s IH]; [done|]. cbn [occurs rstrip].
  intros [Hd Hs]%orb_false_elim. specialize (IH Hs).
  destruct (rstrip s) as [|e r].
  - destruct (is_space d); [done|]. cbn. by rewrite Hd.
  - cbn [occurs] in *. by rewrite Hd, IH.
Qed.

Lemma occurs_strip (c : ascii) (s : string) :
  occurs c s = false -> occurs c (strip s) = false.
Proof. intros H. by apply occurs_rstrip, occurs_lstrip. Qed.

Lemma split_nl_cons (s : string) : exists l ls, split_nl s = l :: ls.
Proof.
  induction s as [|c s (l & ls & IH)]; [by eexists _, _|].
  cbn [split_nl]. rewrite IH. destruct (is_nl c); by eexists _, _.
Qed.

Lemma split_nl_no_nl (s : string) :
  Forall (fun l => occurs LF l = false) (split_nl s).
Proof.
  induction s as [|c s IH]; [by repeat constructor|].
  cbn [split_nl]. destruct (is_nl c) eqn:Hc; [by constructor|].
  unfold is_nl in Hc.
  destruct (split_nl s) as [|l ls].
  { constructor; [|done]. cbn [occurs]. by rewrite Hc. }
  inversion_clear IH as [|? ? Hl Hls]. constructor; [|done].
  cbn [occurs]. by rewrite Hc, Hl.
Qed.

Lemma split_nl_line (l : string) :
  occurs LF l = false -> split_nl l = [l].
Proof.
  induction l as [|c l IH]; [done|]. cbn [occurs split_nl]. unfold is_nl.
  intros [-> Hl]%orb_false_elim. by rewrite (IH Hl).
Qed.

Lemma split_nl_line_nl (l rest : string) :
  occurs LF l = false -> split_nl (l +:+ nl +:+ rest) = l :: split_nl rest.
Proof.
  induction l as [|c l IH]; [done|]. cbn [occurs]. 
  intros [Hc Hl]%orb_false_elim. rewrite append_cons. cbn [split_nl].
  unfold is_nl. by rewrite Hc, (IH Hl).
Qed.

Lemma split_nl_join (ls : list string) :
  Forall (fun l => occurs LF l = false) ls -> ls <> [] ->
  split_nl (join nl ls) = ls.
Proof.
  induction 1 as [|l rest Hl Hrest IH]; [done|]. intros _.
  destruct rest as [|l' rest'].
  - by apply split_nl_line.
  - rewrite join_cons, split_nl_line_nl by done. by rewrite IH.
Qed.

Lemma lstrip_join (ls : list string) :
  Forall trimmed ls ->
  lstrip (join nl ls) = join nl (drop_leading_empty ls).
Proof.
  induction 1 as [|l rest [Hstart _] _ IH]; [done|].
  destruct l as [|c l].
  - cbn [drop_leading_empty]. destruct rest as [|l' rest']; [done|].
    rewrite join_cons, append_nil_l. exact IH.
  - cbn [drop_leading_empty]. apply lstrip_id.
    by destruct rest.
Qed.

Lemma rstrip_append (s t : string) :
  rstrip (s +:+ t)
  = match rstrip t with
    | "" => rstrip s
    | String c r => s +:+ String c r
    end.
Proof.
  induction s as [|d s IH].
  - rewrite append_nil_l. by destruct (rstrip t).
  - rewrite append_cons. cbn [rstrip]. rewrite IH.
    destruct (rstrip t) as [|c r]; [done|].
    rewrite append_cons. by destruct s.
Qed.

Lemma drop_trailing_empty_join (ls : list string) :
  drop_trailing_empty ls <> [] -> join nl (drop_trailing_empty ls) <> "".
Proof.
  induction ls as [|l rest IH]; [done|]. cbn [drop_trailing_empty].
  destruct (drop_trailing_empty rest) as [|x xs].
  - destruct l; [done|]. by intros _.
  - intros _. rewrite join_cons. by destruct l.
Qed.

Lemma rstrip_join (ls : list string) :
  Forall trimmed ls ->
  rstrip (join nl ls) = join nl (drop_trailing_empty ls).
Proof.
  induction 1 as [|l rest [_ Hend] _ IH]; [done|].
  destruct rest as [|l' rest'].
  - change (join nl [l]) with l. rewrite rstrip_id by done. by destruct l.
  - rewrite join_cons, rstrip_append.
    change (nl +:+ join nl (l' :: rest'))
      with (String LF (join nl (l' :: rest'))).
    cbn [rstrip]. rewrite IH.
    change (drop_trailing_empty (l :: l' :: rest'))
      with (match drop_trailing_empty (l' :: rest') with
            | [] => match l with "" => [] | _ => [l] end
            | rest'' => l :: rest''
            end).
    pose proof (drop_trailing_empty_join (l' :: rest')) as Hne.
    destruct (drop_trailing_empty (l' :: rest')) as [|x xs].
    + change (join nl []) with "". change (is_space LF) with true. cbn match.
      rewrite rstrip_id by done. by destruct l.
    + destruct (join nl (x :: xs)) as [|c r] eqn:Hjoin; [by destruct Hne|].
      by rewrite join_cons, Hjoin.
Qed.

Lemma drop_leading_empty_Forall (P : string -> Prop) (ls : list string) :
  Forall P ls -> Forall P (drop_leading_empty ls).
Proof.
  induction 1 as [|l rest Hl Hrest IH]; [done|].
  destruct l; [exact IH | by constructor].
Qed.

Lemma drop_trailing_empty_Forall (P : string -> Prop) (ls : list string) :
  Forall P ls -> Forall P (drop_trailing_empty ls).
Proof.
  induction 1 as [|l rest Hl Hrest IH]; [done|]. cbn [drop_trailing_empty].
  destruct (drop_trailing_empty rest).
  - destruct l; [done | by constructor].
  - by constructor.
Qed.

Lemma stripped_lines (s : string) :
  Forall (fun l => trimmed l /\ occurs LF l = false)
    (map strip (split_nl s)).
Proof.
  apply Forall_map. eapply Forall_impl; [apply split_nl_no_nl|].
  intros l Hl. split; [apply strip_trimmed | by apply occurs_strip].
Qed.

Lemma strip_join (ls : list string) :
  Forall trimmed ls ->
  strip (join nl ls) = join nl (drop_trailing_empty (drop_leading_empty ls)).
Proof.
  intros Hls. unfold strip. rewrite lstrip_join by done.
  by apply rstrip_join, drop_leading_empty_Forall.
Qed.

Lemma clean_text_join (s : string) :
  clean_text s = join nl (clean_lines s).
Proof.
  unfold clean_text, clean_lines. cbv zeta.
  pose proof (stripped_lines (collapse_newlines s)) as Hlines.
  apply Forall_and in Hlines as [Htrim _].
  by apply strip_join.
Qed.

Lemma clean_lines_trimmed (s : string) :
  Forall (fun l => trimmed l /\ occurs LF l = false) (clean_lines s).
Proof.
  apply drop_trailing_empty_Forall, drop_leading_empty_Forall, stripped_lines.
Qed.

(** Every line of the output of [clean_text] is free of leading and
    trailing whitespace. *)
Lemma clean_text_lines_trimmed (s : string) :
  Forall trimmed (split_nl (clean_text s)).
Proof.
  rewrite clean_text_join.
  pose proof (clean_lines_trimmed s) as Hlines.
  apply Forall_and in Hlines as [Htrim Hnl].
  destruct (clean_lines s) as [|l ls] eqn:Hls.
  - by repeat constructor.
  - by rewrite split_nl_join.
Qed.

(** *** Two passes of [clean_text] *)

Lemma collapse_line (l rest : string) :
  occurs LF l = false ->
  collapse_newlines (l +:+ rest) = l +:+ collapse_newlines rest.
Proof.
  induction l as [|c l IH]; [done|]. cbn [occurs].
  intros [Hc Hl]%orb_false_elim. rewrite !append_cons.
  cbn [collapse_newlines]. unfold is_nl. by rewrite Hc, (IH Hl).
Qed.

Lemma collapse_line_only (l : string) :
  occurs LF l = false -> collapse_newlines l = l.
Proof.
  intros Hl. rewrite <- (append_nil_r l) at 1.
  by rewrite collapse_line, append_nil_r.
Qed.

Lemma collapse_nl_line (c : ascii) (rest : string) :
  Ascii.eqb c LF = false ->
  collapse_newlines (String LF (String c rest))
  = String LF (collapse_newlines (String c rest)).
Proof.
  intros Hc. cbn [collapse_newlines]. unfold is_nl.
  change (Ascii.eqb LF LF) with true. cbn match. by rewrite Hc.
Qed.

Lemma non_empty_lines_last (ls : list string) :
  ls <> [] -> last ls <> Some "" -> non_empty_lines ls <> [].
Proof.
  induction ls as [|l rest IH]; [done|]. intros _ Hlast.
  cbn [non_empty_lines List.filter].
  destruct l as [|c l]; [|done]. cbn [str_truth].
  destruct rest as [|l' rest']; [done|]. by apply IH.
Qed.

Lemma collapse_nl_join (ls : list string) :
  Forall (fun l => occurs LF l = false) ls ->
  ls <> [] -> last ls <> Some "" ->
  collapse_newlines (nl +:+ join nl ls)
  = nl +:+ join nl (non_empty_lines ls).
Proof.
  induction 1 as [|l rest Hl Hrest IH]; [done|]. intros _ Hlast.
  destruct rest as [|l' rest'].
  - destruct l as [|c l]; [done|].
    change (join nl [String c l]) with (String c l).
    change (non_empty_lines [String c l]) with [String c l].
    change (join nl [String c l]) with (String c l).
    change (nl +:+ String c l) with (String LF (String c l)).
    cbn [occurs] in Hl. apply orb_false_elim in Hl as [Hc Hl'].
    rewrite collapse_nl_line by done.
    rewrite collapse_line_only; [done|]. cbn [occurs]. by rewrite Hc, Hl'.
  - rewrite join_cons.
    assert (Hlast' : last (l' :: rest') <> Some "") by done.
    specialize (IH ltac:(done) Hlast').
    pose proof (non_empty_lines_last (l' :: rest') ltac:(done) Hlast') as Hne.
    destruct l as [|c l].
    + change (non_empty_lines ("" :: l' :: rest'))
        with (non_empty_lines (l' :: rest')).
      rewrite <- IH. reflexivity.
    + change (non_empty_lines (String c l :: l' :: rest'))
        with (String c l :: non_empty_lines (l' :: rest')).
      rewrite (join_cons_nonempty (String c l) (non_empty_lines (l' :: rest')))
        by done.
      change (nl +:+ String c l +:+ nl +:+ join nl (l' :: rest'))
        with (String LF (String c (l +:+ nl +:+ join nl (l' :: rest')))).
      pose proof Hl as Hl0. cbn [occurs] in Hl0.
      apply orb_false_elim in Hl0 as [Hc _].
      rewrite collapse_nl_line by done.
      rewrite <- append_cons, collapse_line, IH by done. reflexivity.
Qed.

Lemma collapse_join (ls : list string) :
  Forall (fun l => occurs LF l = false) ls ->
  head ls <> Some "" -> last ls <> Some "" ->
  collapse_newlines (join nl ls) = join nl (non_empty_lines ls).
Proof.
  intros Hls Hhead Hlast. destruct ls as [|l rest]; [done|].
  inversion_clear Hls as [|? ? Hl Hrest].
  destruct l as [|c l]; [by destruct Hhead|].
  change (non_empty_lines (String c l :: rest))
    with (String c l :: non_empty_lines rest).
  destruct rest as [|l' rest'].
  - by apply collapse_line_only.
  - assert (Hlast' : last (l' :: rest') <> Some "") by done.
    rewrite join_cons, collapse_line, collapse_nl_join by done.
    rewrite join_cons_nonempty; [done|].
    by apply non_empty_lines_last.
Qed.

Lemma drop_leading_empty_head (ls : list string) :
  head (drop_leading_empty ls) <> Some "".
Proof. induction ls as [|[|c l] rest IH]; done. Qed.

Lemma drop_trailing_empty_head (ls : list string) :
  head ls <> Some "" -> head (drop_trailing_empty ls) <> Some "".
Proof.
  destruct ls as [|l rest]; [done|]. cbn [drop_trailing_empty].
  destruct (drop_trailing_empty rest); [|done].
  by destruct l.
Qed.

Lemma drop_trailing_empty_last (ls : list string) :
  last (drop_trailing_empty ls) <> Some "".
Proof.
  induction ls as [|l rest IH]; [done|]. cbn [drop_trailing_empty].
  destruct (drop_trailing_empty rest) as [|x xs]; [by destruct l | exact IH].
Qed.

Lemma drop_leading_empty_id (ls : list string) :
  head ls <> Some "" -> drop_leading_empty ls = ls.
Proof. destruct ls as [|[|c l] rest]; done. Qed.

Lemma drop_trailing_empty_id (ls : list string) :
  Forall (fun l => l <> "") ls -> drop_trailing_empty ls = ls.
Proof.
  induction 1 as [|l rest Hl _ IH]; [done|]. cbn [drop_trailing_empty].
  rewrite IH. destruct rest; [by destruct l | done].
Qed.

Lemma non_empty_lines_Forall (P : string -> Prop) (ls : list string) :
  Forall P ls -> Forall P (non_empty_lines ls).
Proof.
  induction 1 as [|l rest Hl _ IH]; [done|].
  cbn [non_empty_lines List.filter]. destruct (str_truth l); [by constructor | done].
Qed.

Lemma non_empty_lines_non_empty (ls : list string) :
  Forall (fun l => l <> "") (non_empty_lines ls).
Proof.
  induction ls as [|l rest IH]; [done|].
  cbn [non_empty_lines List.filter]. destruct l; [done | by constructor].
Qed.

Lemma non_empty_lines_id (ls : list string) :
  Forall (fun l => l <> "") ls -> non_empty_lines ls = ls.
Proof.
  induction 1 as [|l rest Hl _ IH]; [done|].
  cbn [non_empty_lines List.filter]. destruct l; [done|].
  cbn [str_truth]. f_equal. exact IH.
Qed.

Lemma non_empty_head_last (ls : list string) :
  Forall (fun l => l <> "") ls -> head ls <> Some "" /\ last ls <> Some "".
Proof.
  intros Hls. split.
  - destruct Hls; [done|]. cbn. congruence.
  - intros Hlast. apply last_Some_elem_of in Hlast.
    by eapply Forall_forall in Hls.
Qed.

(** What [clean_text] makes of lines that are trimmed, hold no newline
    and do not start or end with an empty line: it drops the empty
    lines. *)
Lemma clean_text_of_join (ls : list string) :
  Forall (fun l => trimmed l /\ occurs LF l = false) ls ->
  head ls <> Some "" -> last ls <> Some "" ->
  clean_text (join nl ls) = join nl (non_empty_lines ls).
Proof.
  intros Hls Hhead Hlast.
  pose proof (non_empty_lines_Forall _ _ Hls) as Hls2.
  apply Forall_and in Hls as [Htrim Hnl].
  apply Forall_and in Hls2 as [Htrim2 Hnl2].
  pose proof (non_empty_lines_non_empty ls) as Hne.
  unfold clean_text. cbv zeta. rewrite collapse_join by done.
  destruct (non_empty_lines ls) as [|l2 ls2] eqn:Heq; [done|].
  rewrite split_nl_join by done.
  replace (map strip (l2 :: ls2)) with (l2 :: ls2).
  - rewrite strip_join by done.
    rewrite drop_leading_empty_id by by apply non_empty_head_last.
    by rewrite drop_trailing_empty_id.
  - symmetry. rewrite <- (map_id (l2 :: ls2)) at 2.
    apply map_ext_Forall. eapply Forall_impl; [exact Htrim2|].
    intros l Hl. by apply trimmed_strip.
Qed.

Lemma clean_lines_framed (s : string) :
  head (clean_lines s) <> Some "" /\ last (clean_lines s) <> Some "".
Proof.
  split.
  - apply drop_trailing_empty_head, drop_leading_empty_head.
  - apply drop_trailing_empty_last.
Qed.

(** A second pass of [clean_text] removes the empty lines that the first
    pass left. *)
Lemma clean_text_twice (s : string) :
  clean_text (clean_text s) = join nl (non_empty_lines (clean_lines s)).
Proof.
  rewrite (clean_text_join s).
  apply clean_text_of_join;
    [apply clean_lines_trimmed | apply clean_lines_framed ..].
Qed.

(** X2. From the second pass on, [clean_text] changes nothing. *)
Lemma clean_text_thrice (s : string) :
  clean_text (clean_text (clean_text s)) = clean_text (clean_text s).
Proof.
  rewrite (clean_text_twice s).
  pose proof (non_empty_lines_non_empty (clean_lines s)) as Hne.
  rewrite clean_text_of_join.
  - by rewrite non_empty_lines_id.
  - apply non_empty_lines_Forall, clean_lines_trimmed.
  - by apply non_empty_head_last.
  - by apply non_empty_head_last.
Qed.

(** [clean_text] is idempotent on every text whose output has no empty
    line. *)
Lemma clean_text_idempotent_without_blank (s : string) :
  Forall (fun l => l <> "") (clean_lines s) ->
  clean_text (clean_text s) = clean_text s.
Proof.
  intros Hne. by rewrite clean_text_twice, non_empty_lines_id, clean_text_join.
Qed.

(** *** A newline at the end of the text *)

Lemma collapse_append_nl (s : string) :
  collapse_newlines (s +:+ nl)
  = if ends_with_nl s then collapse_newlines s
    else collapse_newlines s +:+ nl.
Proof.
  unfold nl. induction s as [|c s IH]; [done|].
  rewrite append_cons.
  destruct s as [|d r].
  - rewrite append_nil_l. cbn [ends_with_nl collapse_newlines]. unfold is_nl.
    change (Ascii.eqb LF LF) with true. cbn match.
    destruct (Ascii.eqb_spec c LF) as [->|]; reflexivity.
  - rewrite append_cons in *.
    change (ends_with_nl (String c (String d r)))
      with (ends_with_nl (String d r)).
    cbn [collapse_newlines] in *.
    destruct (is_nl c), (is_nl d), (ends_with_nl (String d r));
      rewrite ?IH, ?append_cons; reflexivity.
Qed.

Lemma split_nl_append_nl (s : string) :
  split_nl (s +:+ nl) = split_nl s ++ [""].
Proof.
  induction s as [|c s IH]; [done|].
  rewrite append_cons. cbn [split_nl]. rewrite IH.
  destruct (is_nl c); [done|].
  destruct (split_nl_cons s) as (l & ls & ->). done.
Qed.

Lemma drop_trailing_empty_app (ls : list string) :
  drop_trailing_empty (ls ++ [""]) = drop_trailing_empty ls.
Proof.
  induction ls as [|l rest IH]; [done|].
  cbn [app drop_trailing_empty]. by rewrite IH.
Qed.

Lemma drop_leading_trailing_app (ls : list string) :
  drop_trailing_empty (drop_leading_empty (ls ++ [""]))
  = drop_trailing_empty (drop_leading_empty ls).
Proof.
  induction ls as [|[|c l] rest IH]; [done | exact IH |].
  apply (drop_trailing_empty_app (String c l :: rest)).
Qed.

Lemma clean_lines_append_nl (s : string) :
  clean_lines (s +:+ nl) = clean_lines s.
Proof.
  unfold clean_lines. rewrite collapse_append_nl.
  destruct (ends_with_nl s); [done|].
  rewrite split_nl_append_nl, map_app.
  apply drop_leading_trailing_app.
Qed.

(** A newline at the end of the text is of no consequence after
    [clean_text]. *)
Lemma clean_text_append_nl (s : string) :
  clean_text (s +:+ nl) = clean_text s.
Proof. by rewrite !clean_text_join, clean_lines_append_nl. Qed.

Lemma clean_text_newline_terminated (parts : list string) :
  clean_text (newline_terminated parts) = clean_text (join nl parts).
Proof.
  destruct parts as [|part rest]; [done|].
  by rewrite newline_terminated_join, clean_text_append_nl.
Qed.

(** *** The claims on the normaliser *)

(** C1. [clean_text] is not idempotent: a line of whitespace between two
    lines is stripped to a blank line after the newlines were collapsed,
    so the first pass leaves two newlines in a row, which a second pass
    collapses. *)
Theorem clean_text_not_idempotent :
  clean_text (lit "a\n \nb") = lit "a\n\nb"
  /\ clean_text (clean_text (lit "a\n \nb")) = lit "a\nb"
  /\ clean_text (clean_text (lit "a\n \nb")) <> clean_text (lit "a\n \nb").
Proof. split; [|split]; [reflexivity | reflexivity | discriminate]. Qed.

(** C2. On the example of the specification [clean_text] gives
    [a], [b], a blank line, [c]: the output has a blank line and two
    newlines in a row, and is not the three lines [a], [b], [c]. *)
Theorem clean_text_leaves_blank_line :
  clean_text (lit "a\n\n\nb \n \nc") = lit "a\nb\n\nc"
  /\ In "" (split_nl (clean_text (lit "a\n\n\nb \n \nc")))
  /\ clean_text (lit "a\n\n\nb \n \nc") <> lit "a\nb\nc".
Proof.
  split; [|split]; [reflexivity | | discriminate].
  change (In "" ["a"; "b"; ""; "c"]). right. right. by left.
Qed.

(** *** The trace monad *)

Lemma bind_call_ok {A B} (ev : event) (a : A) (k : A -> M B) :
  bind (call ev (Ok a)) k = (ev :: trace (k a), outcome (k a)).
Proof. unfold bind, call, trace, outcome. destruct (k a); reflexivity. Qed.

Lemma bind_call_raised {A B} (ev : event) (e : exn) (k : A -> M B) :
  bind (call ev (Raised e)) k = ([ev], Raised e).
Proof. reflexivity. Qed.

Lemma try_except_raised {A} (tr : list event) (e : exn) (fmt : string) :
  try_except (A := A) (tr, Raised e) (parsing_error fmt)
  = (tr, Raised (ParsingError ("Error parsing " +:+ fmt +:+ ": " +:+ exn_str e))).
Proof. unfold try_except, parsing_error, raise. by rewrite app_nil_r. Qed.

Lemma try_except_ok {A} (tr : list event) (a : A) (h : exn -> M A) :
  try_except (tr, Ok a) h = (tr, Ok a).
Proof. reflexivity. Qed.

(** *** The dispatcher *)

Lemma process_document_nonempty (w : World) (file_path : string)
  (size : Z) (mime : string) :
  os_path_getsize w file_path = Ok size -> size <> 0%Z ->
  magic_from_file w file_path = Ok mime ->
  process_document w file_path
  = match select_parser mime (file_extension_of file_path) with
    | (Some p, t) =>
        ([EvGetsize file_path; EvSniff file_path; EvCall p file_path]
           ++ trace (parser_fn p w file_path),
         match outcome (parser_fn p w file_path) with
         | Ok raw_text => Ok (clean_text raw_text, t)
         | Raised e => Raised e
         end)
    | (None, t) =>
        ([EvGetsize file_path; EvSniff file_path],
         Raised (UnsupportedFileType ("Unsupported file type: " +:+ t)))
    end.
Proof.
  intros Hsize Hnz Hmime. unfold process_document.
  rewrite Hsize, bind_call_ok.
  destruct (Z.eqb_spec size 0) as [|_]; [contradiction|].
  rewrite Hmime, bind_call_ok.
  destruct (select_parser mime (file_extension_of file_path)) as [[p|] t];
    [|reflexivity].
  destruct (parser_fn p w file_path) as [tr [raw|e]];
    cbn; rewrite ?app_nil_r; reflexivity.
Qed.

Lemma select_invokes (w : World) (file_path : string) (size : Z)
  (mime : string) (p : parser) (t : string) :
  os_path_getsize w file_path = Ok size -> size <> 0%Z ->
  magic_from_file w file_path = Ok mime ->
  select_parser mime (file_extension_of file_path) = (Some p, t) ->
  invokes w file_path p t.
Proof.
  intros Hsize Hnz Hmime Hsel.
  unfold invokes.
  rewrite (process_document_nonempty w file_path size mime), Hsel by done.
  split; reflexivity.
Qed.

Lemma select_rejects (w : World) (file_path : string) (size : Z)
  (mime t : string) :
  os_path_getsize w file_path = Ok size -> size <> 0%Z ->
  magic_from_file w file_path = Ok mime ->
  select_parser mime (file_extension_of file_path) = (None, t) ->
  rejects w file_path t.
Proof.
  intros Hsize Hnz Hmime Hsel.
  unfold rejects.
  by rewrite (process_document_nonempty w file_path size mime), Hsel.
Qed.

Lemma process_document_empty_nil (w : World) (file_path : string) :
  os_path_getsize w file_path = Ok 0%Z ->
  process_document w file_path
  = ([EvGetsize file_path], Ok ("", "inode/x-empty")).
Proof.
  intros Hsize. unfold process_document.
  rewrite Hsize, bind_call_ok. reflexivity.
Qed.

Lemma select_text_plain (ext : string) :
  select_parser "text/plain" ext
  = if String.eqb ext ".csv" then (Some Parse_csv, "text/csv")
    else if String.eqb ext ".md" then (Some Parse_markdown, "text/markdown")
    else (Some Parse_text, "text/plain").
Proof. reflexivity. Qed.

Lemma select_other (mime ext : string) :
  mime <> "text/plain" ->
  select_parser mime ext = (parser_dispatcher_mime !! mime, mime).
Proof.
  intros Hne. unfold select_parser.
  destruct (String.eqb_spec mime "text/plain"); [contradiction|reflexivity].
Qed.

(** The type [select_parser] reports is registered exactly when a parser
    was selected. *)
Lemma select_parser_lookup (mime ext : string) :
  fst (select_parser mime ext) = None ->
  mime <> "text/plain"
  /\ snd (select_parser mime ext) = mime
  /\ parser_dispatcher_mime !! mime = None.
Proof.
  unfold select_parser.
  destruct (String.eqb_spec mime "text/plain") as [->|Hne].
  - destruct (String.eqb ext ".csv"); [discriminate|].
    destruct (String.eqb ext ".md"); discriminate.
  - cbn. auto.
Qed.

(** C3. A file of size zero makes [process_document] return the empty
    text and the type [inode/x-empty] at once, whatever its name: the
    only library call is the one that asks for the size, so the content
    is not sniffed and no parser is looked up or called. *)
Theorem process_document_empty_file (w : World) (file_path : string) :
  os_path_getsize w file_path = Ok 0%Z ->
  process_document w file_path
  = ([EvGetsize file_path], Ok ("", "inode/x-empty")).
Proof. apply process_document_empty_nil. Qed.

Lemma process_document_empty_file_witness :
  process_document sample_world "/tmp/empty.pdf"
  = ([EvGetsize "/tmp/empty.pdf"], Ok ("", "inode/x-empty")).
Proof.
  apply (process_document_empty_file sample_world "/tmp/empty.pdf").
  reflexivity.
Defined.

(** C4. For a file that is not empty: when the sniffed type is
    [text/plain], the extension [.csv] selects the CSV parser and the
    type [text/csv], the extension [.md] selects the Markdown parser and
    the type [text/markdown], and any other extension, or none, selects
    the plain-text parser and keeps [text/plain]; when the sniffed type
    is not [text/plain], the resolved type is the sniffed one whatever
    the extension, handled by the parser the table gives for it or
    rejected when the table has none. *)
Theorem extension_disambiguation (w : World) (file_path : string)
  (size : Z) (mime : string) :
  os_path_getsize w file_path = Ok size -> size <> 0%Z ->
  magic_from_file w file_path = Ok mime ->
  (mime = "text/plain" -> file_extension_of file_path = ".csv" ->
   invokes w file_path Parse_csv "text/csv")
  /\ (mime = "text/plain" -> file_extension_of file_path = ".md" ->
      invokes w file_path Parse_markdown "text/markdown")
  /\ (mime = "text/plain" -> file_extension_of file_path <> ".csv" ->
      file_extension_of file_path <> ".md" ->
      invokes w file_path Parse_text "text/plain")
  /\ (mime <> "text/plain" ->
      match parser_dispatcher_mime !! mime with
      | Some p => invokes w file_path p mime
      | None => rejects w file_path mime
      end).
Proof.
  intros Hsize Hnz Hmime. split; [|split; [|split]].
  - intros -> Hext. eapply select_invokes; eauto.
    by rewrite select_text_plain, Hext.
  - intros -> Hext. eapply select_invokes; eauto.
    by rewrite select_text_plain, Hext.
  - intros -> Hcsv Hmd. eapply select_invokes; eauto.
    rewrite select_text_plain.
    destruct (String.eqb_spec (file_extension_of file_path) ".csv"); [done|].
    destruct (String.eqb_spec (file_extension_of file_path) ".md"); done.
  - intros Hne.
    destruct (parser_dispatcher_mime !! mime) as [p|] eqn:Hlook.
    + eapply select_invokes; eauto. by rewrite select_other, Hlook.
    + eapply select_rejects; eauto. by rewrite select_other, Hlook.
Qed.

Lemma extension_disambiguation_witness :
  invokes sample_world "/tmp/data.csv" Parse_csv "text/csv"
  /\ invokes sample_world "/tmp/notes.md" Parse_markdown "text/markdown"
  /\ invokes sample_world "/tmp/readme.txt" Parse_text "text/plain"
  /\ invokes sample_world "/tmp/scan.pdf" Parse_pdf "application/pdf"
  /\ rejects sample_world "/tmp/archive.zip" "application/zip".
Proof.
  split; [|split; [|split; [|split]]].
  - destruct (extension_disambiguation sample_world "/tmp/data.csv" 12
                "text/plain") as (H & _);
      [reflexivity | lia | reflexivity |].
    apply H; reflexivity.
  - destruct (extension_disambiguation sample_world "/tmp/notes.md" 12
                "text/plain") as (_ & H & _);
      [reflexivity | lia | reflexivity |].
    apply H; reflexivity.
  - destruct (extension_disambiguation sample_world "/tmp/readme.txt" 12
                "text/plain") as (_ & _ & H & _);
      [reflexivity | lia | reflexivity |].
    apply H; [reflexivity | vm_compute; discriminate ..].
  - destruct (extension_disambiguation sample_world "/tmp/scan.pdf" 12
                "application/pdf") as (_ & _ & _ & H);
      [reflexivity | lia | reflexivity |].
    apply H. discriminate.
  - destruct (extension_disambiguation sample_world "/tmp/archive.zip" 12
                "application/zip") as (_ & _ & _ & H);
      [reflexivity | lia | reflexivity |].
    apply H. discriminate.
Defined.

(** C7. For a file that is not empty and whose resolved type (the type
    after the extension fallback) has no parser in the table,
    [process_document] raises [UnsupportedFileType] with a message that
    carries the resolved type; the trace shows the size and sniff calls
    only, so no parser is called and nothing is returned. *)
Theorem unsupported_type_rejected (w : World) (file_path : string)
  (size : Z) (mime : string) :
  os_path_getsize w file_path = Ok size -> size <> 0%Z ->
  magic_from_file w file_path = Ok mime ->
  parser_dispatcher_mime !! resolved_type mime file_path = None ->
  process_document w file_path
  = ([EvGetsize file_path; EvSniff file_path],
     Raised (UnsupportedFileType
               ("Unsupported file type: " +:+ resolved_type mime file_path))).
Proof.
  intros Hsize Hnz Hmime Hnone. unfold resolved_type in *.
  rewrite (process_document_nonempty w file_path size mime) by done.
  destruct (select_parser mime (file_extension_of file_path)) as [[p|] t] eqn:Hsel;
    [|reflexivity].
  exfalso. revert Hsel Hnone. unfold select_parser.
  destruct (String.eqb_spec mime "text/plain") as [->|Hne].
  - destruct (String.eqb _ ".csv"); [|destruct (String.eqb _ ".md")];
      intros [= <- <-] Hnone; vm_compute in Hnone; discriminate.
  - intros Hsel.
    pose proof (f_equal fst Hsel) as Hp. pose proof (f_equal snd Hsel) as Ht.
    cbn [fst snd] in Hp, Ht. subst t. cbn [snd]. congruence.
Qed.

Lemma unsupported_type_rejected_witness :
  process_document sample_world "/tmp/archive.zip"
  = ([EvGetsize "/tmp/archive.zip"; EvSniff "/tmp/archive.zip"],
     Raised (UnsupportedFileType "Unsupported file type: application/zip")).
Proof.
  apply (unsupported_type_rejected sample_world "/tmp/archive.zip" 12
           "application/zip"); (reflexivity || lia).
Defined.

(** *** The dispatch table *)

Lemma dispatcher_dom :
  dom parser_dispatcher_mime = list_to_set registered_mime_types.
Proof.
  unfold parser_dispatcher_mime, registered_mime_types.
  rewrite !dom_insert_L, dom_empty_L. cbn [list_to_set foldr].
  set_solver.
Qed.

Lemma dispatcher_lookup (mime : string) :
  is_Some (parser_dispatcher_mime !! mime) <-> mime ∈ registered_mime_types.
Proof.
  rewrite <- elem_of_dom, dispatcher_dom. apply elem_of_list_to_set.
Qed.

Lemma dispatcher_lookup_none (mime : string) :
  parser_dispatcher_mime !! mime = None <-> mime ∉ registered_mime_types.
Proof.
  rewrite <- dispatcher_lookup, eq_None_not_Some. reflexivity.
Qed.

Lemma select_parser_registered (mime ext : string) (p : parser) (t : string) :
  select_parser mime ext = (Some p, t) -> t ∈ registered_mime_types.
Proof.
  unfold select_parser.
  destruct (String.eqb_spec mime "text/plain") as [->|Hne].
  - destruct (String.eqb ext ".csv"); [|destruct (String.eqb ext ".md")];
      intros [= <- <-]; unfold registered_mime_types; set_solver.
  - intros Hsel.
    pose proof (f_equal fst Hsel) as Hp. pose proof (f_equal snd Hsel) as Ht.
    cbn [fst snd] in Hp, Ht. subst t. apply dispatcher_lookup. by rewrite Hp.
Qed.

Lemma select_parser_some (mime ext : string) :
  mime ∈ registered_mime_types ->
  exists p t, select_parser mime ext = (Some p, t).
Proof.
  intros Hin. unfold select_parser.
  destruct (String.eqb mime "text/plain").
  - destruct (String.eqb ext ".csv"); [|destruct (String.eqb ext ".md")];
      eauto.
  - apply dispatcher_lookup in Hin as [p Hp]. rewrite Hp. eauto.
Qed.

Lemma process_document_ok_type (w : World) (file_path text t : string) :
  outcome (process_document w file_path) = Ok (text, t) ->
  t ∈ contract_mime_types.
Proof.
  destruct (os_path_getsize w file_path) as [size|e] eqn:Hsize.
  2:{ unfold process_document. rewrite Hsize. discriminate. }
  destruct (Z.eq_dec size 0%Z) as [->|Hnz].
  { rewrite process_document_empty_nil by done. intros [= <- <-].
    unfold contract_mime_types. set_solver. }
  destruct (magic_from_file w file_path) as [mime|e] eqn:Hmime.
  2:{ unfold process_document. rewrite Hsize, bind_call_ok, Hmime.
      destruct (Z.eqb_spec size 0%Z); [done|]. discriminate. }
  rewrite (process_document_nonempty w file_path size mime) by done.
  destruct (select_parser mime (file_extension_of file_path)) as [[p|] t'] eqn:Hsel;
    [|discriminate].
  cbn [outcome snd]. destruct (outcome (parser_fn p w file_path)); [|discriminate].
  intros [= <- <-]. apply elem_of_app. left.
  eapply select_parser_registered; eauto.
Qed.

Lemma blank_world_ok (t : string) :
  t ∈ registered_mime_types ->
  outcome (process_document (blank_world 1 t) "upload") = Ok ("", t).
Proof.
  unfold registered_mime_types. rewrite !elem_of_cons, elem_of_nil.
  intros H. repeat (destruct H as [->|H]; [vm_compute; reflexivity|]).
  contradiction.
Qed.

(** C9. The types the dispatcher handles are the sixteen of the contract
    list: the table holds a parser for exactly the fifteen parser-backed
    types, and the sentinel [inode/x-empty] is handled by the zero-byte
    return. A file that is not empty and sniffs as one of the fifteen has
    a parser found and called; an empty file is answered with the
    sentinel; every type of the list is reported by some successful run
    and no other type ever is; and a file that is not empty and sniffs as
    a type outside the list raises [UnsupportedFileType]. *)
Theorem registered_types_contract :
  dom parser_dispatcher_mime = list_to_set registered_mime_types
  /\ length contract_mime_types = 16
  /\ NoDup contract_mime_types
  /\ (forall w file_path size mime,
        os_path_getsize w file_path = Ok size -> size <> 0%Z ->
        magic_from_file w file_path = Ok mime ->
        mime ∈ registered_mime_types ->
        exists p t, invokes w file_path p t)
  /\ (forall w file_path,
        os_path_getsize w file_path = Ok 0%Z ->
        outcome (process_document w file_path) = Ok ("", "inode/x-empty"))
  /\ (forall t, t ∈ contract_mime_types ->
        exists w file_path text,
          outcome (process_document w file_path) = Ok (text, t))
  /\ (forall w file_path text t,
        outcome (process_document w file_path) = Ok (text, t) ->
        t ∈ contract_mime_types)
  /\ (forall w file_path size mime,
        os_path_getsize w file_path = Ok size -> size <> 0%Z ->
        magic_from_file w file_path = Ok mime ->
        mime ∉ contract_mime_types ->
        rejects w file_path mime).
Proof.
  split; [apply dispatcher_dom|].
  split; [reflexivity|].
  split; [refine (bool_decide_unpack _ _); vm_compute; exact I|].
  split.
  { intros w file_path size mime Hsize Hnz Hmime Hin.
    destruct (select_parser_some mime (file_extension_of file_path) Hin)
      as (p & t & Hsel).
    exists p, t. eapply select_invokes; eauto. }
  split.
  { intros w file_path Hsize. by rewrite process_document_empty_nil. }
  split.
  { intros t [Hin | Hin]%elem_of_app.
    - exists (blank_world 1 t), "upload", "". by apply blank_world_ok.
    - apply list_elem_of_singleton in Hin as ->.
      exists (blank_world 0 "inode/x-empty"), "upload", "". reflexivity. }
  split; [apply process_document_ok_type|].
  intros w file_path size mime Hsize Hnz Hmime Hout.
  assert (Hreg : mime ∉ registered_mime_types).
  { intros Hin. apply Hout, elem_of_app. by left. }
  assert (Hne : mime <> "text/plain").
  { intros ->. apply Hreg. unfold registered_mime_types. set_solver. }
  eapply select_rejects; eauto.
  rewrite select_other by done.
  by apply dispatcher_lookup_none in Hreg as ->.
Qed.

Lemma registered_types_contract_witness :
  (exists p t, invokes sample_world "/tmp/scan.pdf" p t)
  /\ outcome (process_document sample_world "/tmp/empty.pdf")
     = Ok ("", "inode/x-empty")
  /\ "application/pdf" ∈ contract_mime_types
  /\ rejects sample_world "/tmp/archive.zip" "application/zip".
Proof.
  destruct registered_types_contract
    as (_ & _ & _ & Hreg & Hempty & _ & Hok & Hout).
  split; [|split; [|split]].
  - apply (Hreg sample_world "/tmp/scan.pdf" 12%Z "application/pdf");
      [reflexivity | lia | reflexivity |].
    refine (bool_decide_unpack _ _). vm_compute. exact I.
  - apply (Hempty sample_world "/tmp/empty.pdf"). reflexivity.
  - apply (Hok sample_world "/tmp/scan.pdf"
             (lit "Hello\nscanned one\n.\nscanned three")).
    vm_compute. reflexivity.
  - apply (Hout sample_world "/tmp/archive.zip" 12%Z "application/zip");
      [reflexivity | lia | reflexivity |].
    refine (bool_decide_unpack _ _). vm_compute. exact I.
Defined.

(** *** Parser failures *)

Lemma parser_fn_try_except (p : parser) (w : World) (file_path : string) :
  parser_fn p w file_path
  = try_except (parser_body p w file_path) (parsing_error (format_name p)).
Proof. destruct p; reflexivity. Qed.

(** C6. Whatever exception the work inside a parser raises, on whatever
    input, the parser raises [ParsingError] instead, with the message
    ["Error parsing <format>: <message of the exception>"], after the
    same library calls; and [process_document] lets it through: on a
    non-empty file whose sniffed type and extension select this parser,
    the run is the size check, the sniff, the call of the parser with its
    library calls, and ends with that very [ParsingError]. *)
Theorem parser_failure_wrapped (p : parser) (w : World) (file_path : string)
  (tr : list event) (e : exn) :
  parser_body p w file_path = (tr, Raised e) ->
  parser_fn p w file_path
  = (tr, Raised (ParsingError
                   ("Error parsing " +:+ format_name p +:+ ": " +:+ exn_str e)))
  /\ (forall (size : Z) (mime t : string),
        os_path_getsize w file_path = Ok size -> size <> 0%Z ->
        magic_from_file w file_path = Ok mime ->
        select_parser mime (file_extension_of file_path) = (Some p, t) ->
        process_document w file_path
        = ([EvGetsize file_path; EvSniff file_path; EvCall p file_path] ++ tr,
           Raised (ParsingError
                     ("Error parsing " +:+ format_name p +:+ ": "
                      +:+ exn_str e)))).
Proof.
  intros Hbody.
  assert (Hfn : parser_fn p w file_path
                = (tr, Raised (ParsingError
                     ("Error parsing " +:+ format_name p +:+ ": "
                      +:+ exn_str e)))).
  { by rewrite parser_fn_try_except, Hbody, try_except_raised. }
  split; [exact Hfn|].
  intros size mime t Hsize Hnz Hmime Hsel.
  rewrite (process_document_nonempty w file_path size mime Hsize Hnz Hmime).
  rewrite Hsel, Hfn. reflexivity.
Qed.

Lemma parser_failure_wrapped_witness :
  parse_pdf sample_world "/tmp/broken.pdf"
  = ([], Raised (ParsingError
       "Error parsing PDF: No /Root object! - Is this really a PDF?"))
  /\ process_document sample_world "/tmp/broken.pdf"
     = ([EvGetsize "/tmp/broken.pdf"; EvSniff "/tmp/broken.pdf";
         EvCall Parse_pdf "/tmp/broken.pdf"],
        Raised (ParsingError
          "Error parsing PDF: No /Root object! - Is this really a PDF?")).
Proof.
  destruct (parser_failure_wrapped Parse_pdf sample_world "/tmp/broken.pdf" []
              (LibError "No /Root object! - Is this really a PDF?"))
    as [Hfn Hrun]; [reflexivity|].
  split; [exact Hfn|].
  apply (Hrun 12%Z "application/pdf" "application/pdf");
    [reflexivity | lia | reflexivity | by vm_compute].
Defined.

(** *** The PDF parser *)

Lemma pdf_loop_readable (w : World) (pages : list Page) :
  Forall (page_readable w) pages ->
  forall (i : nat) (text : string),
    pdf_loop w i pages text
    = (pdf_events i pages,
       Ok (text +:+ newline_terminated (map (page_output w) pages))).
Proof.
  induction 1 as [|page rest [[o Ho] Hocr] _ IH]; intros i text.
  - cbn [pdf_loop pdf_events map newline_terminated]. by rewrite append_nil_r.
  - cbn [pdf_loop pdf_events map newline_terminated].
    rewrite Ho, bind_call_ok.
    assert (Hlayer : text_layer page = default "" o).
    { unfold text_layer. rewrite Ho. by destruct o. }
    assert (Htruth : opt_str_truth o = str_truth (text_layer page)).
    { rewrite Hlayer. by destruct o. }
    unfold page_output. rewrite Htruth.
    destruct (str_truth (text_layer page)) eqn:Hcase.
    + rewrite IH, <- Hlayer. cbn [trace outcome fst snd app].
      by rewrite !append_assoc.
    + apply str_truth_false in Hcase.
      destruct (Hocr Hcase) as (im & t & Him & Ht).
      assert (Himage : image_of page = im) by (unfold image_of; by rewrite Him).
      unfold ocr_text. rewrite Himage, Him, bind_call_ok, Ht, bind_call_ok, IH.
      cbn [trace outcome fst snd app]. by rewrite !append_assoc.
Qed.

Lemma pdf_page_events_to_image (page : Page) (i j : nat) :
  EvToImage j
    ∈ (EvExtractText i ::
         if str_truth (text_layer page) then []
         else [EvToImage i; EvOcr (OcrImage (image_of page))])
  <-> j = i /\ text_layer page = "".
Proof.
  rewrite <- str_truth_false.
  destruct (str_truth (text_layer page));
    rewrite ?elem_of_cons, elem_of_nil; split.
  - intros [[=] | []].
  - intros [_ [=]].
  - intros [[=] | [[= ->] | [[=] | []]]]. done.
  - intros [-> _]. right. by left.
Qed.

Lemma pdf_page_events_ocr (page : Page) (i : nat) (src : ocr_source) :
  EvOcr src
    ∈ (EvExtractText i ::
         if str_truth (text_layer page) then []
         else [EvToImage i; EvOcr (OcrImage (image_of page))])
  <-> text_layer page = "" /\ src = OcrImage (image_of page).
Proof.
  rewrite <- str_truth_false.
  destruct (str_truth (text_layer page));
    rewrite ?elem_of_cons, elem_of_nil; split.
  - intros [[=] | []].
  - intros [[=] _].
  - intros [[=] | [[=] | [[= ->] | []]]]. done.
  - intros [_ ->]. right. right. by left.
Qed.

Lemma pdf_events_to_image (pages : list Page) (i j : nat) :
  EvToImage j ∈ pdf_events i pages
  <-> exists page, i <= j /\ pages !! (j - i) = Some page
                   /\ text_layer page = "".
Proof.
  revert i. induction pages as [|page rest IH]; intros i.
  - cbn. split; [by intros ?%elem_of_nil | by intros (? & _ & ? & _)].
  - cbn [pdf_events]. rewrite elem_of_app, IH, pdf_page_events_to_image.
    split.
    + intros [[-> Hempty] | (page' & Hle & Hlook & Hempty)].
      * exists page. by rewrite Nat.sub_diag.
      * exists page'. split; [lia|]. split; [|done].
        by replace (j - i) with (S (j - S i)) by lia.
    + intros (page' & Hle & Hlook & Hempty).
      destruct (decide (j = i)) as [->|Hne].
      * left. rewrite Nat.sub_diag in Hlook. by injection Hlook as ->.
      * right. exists page'. split; [lia|]. split; [|done].
        by replace (j - i) with (S (j - S i)) in Hlook by lia.
Qed.

Lemma pdf_events_ocr (pages : list Page) (i : nat) (src : ocr_source) :
  EvOcr src ∈ pdf_events i pages
  <-> exists page, page ∈ pages /\ text_layer page = ""
                   /\ src = OcrImage (image_of page).
Proof.
  revert i. induction pages as [|page rest IH]; intros i.
  - cbn. split; [by intros ?%elem_of_nil | intros (? & ?%elem_of_nil & _); done].
  - cbn [pdf_events]. rewrite elem_of_app, IH, pdf_page_events_ocr. split.
    + intros [[Hempty ->] | (page' & Hin & Hempty & ->)].
      * exists page. split; [by left | done].
      * exists page'. split; [by right | done].
    + intros (page' & [-> | Hin]%elem_of_cons & Hempty & ->).
      * by left.
      * right. eauto.
Qed.

Lemma parse_pdf_readable (w : World) (file_path : string) (pages : list Page) :
  pdfplumber_pages w file_path = Ok pages ->
  Forall (page_readable w) pages ->
  parse_pdf w file_path
  = (pdf_events 0 pages, Ok (newline_terminated (map (page_output w) pages))).
Proof.
  intros Hpages Hreadable. unfold parse_pdf, parse_pdf_body, lift.
  rewrite Hpages. cbn [bind].
  by rewrite pdf_loop_readable, append_nil_l.
Qed.

(** C5. In a PDF whose pages can be read, a page is rasterised and read
    by OCR exactly when its text layer is empty: the pages rasterised are
    those with an empty text layer, the OCR calls are those on the images
    of these pages, and a page with any text at all is left alone. The
    output is the per-page outputs in page order (the text layer, or the
    OCR output when the layer is empty), each followed by a newline: the
    outputs joined by newlines, with a final newline, which makes no
    difference once the text is cleaned. *)
Theorem pdf_ocr_iff_empty_text_layer (w : World) (file_path : string)
  (pages : list Page) :
  pdfplumber_pages w file_path = Ok pages ->
  Forall (page_readable w) pages ->
  outcome (parse_pdf w file_path)
  = Ok (newline_terminated (map (page_output w) pages))
  /\ (pages <> [] ->
      outcome (parse_pdf w file_path)
      = Ok (join nl (map (page_output w) pages) +:+ nl))
  /\ clean_text (newline_terminated (map (page_output w) pages))
     = clean_text (join nl (map (page_output w) pages))
  /\ (forall i page, pages !! i = Some page ->
        (EvToImage i ∈ trace (parse_pdf w file_path)
         <-> text_layer page = ""))
  /\ (forall src,
        EvOcr src ∈ trace (parse_pdf w file_path)
        <-> exists page, page ∈ pages /\ text_layer page = ""
                         /\ src = OcrImage (image_of page)).
Proof.
  intros Hpages Hreadable.
  rewrite (parse_pdf_readable w file_path pages) by done.
  cbn [trace outcome fst snd].
  split; [done|]. split; [|split; [|split]].
  - intros Hne. rewrite newline_terminated_join; [done|].
    by destruct pages.
  - apply clean_text_newline_terminated.
  - intros i page Hlook. rewrite pdf_events_to_image, Nat.sub_0_r. split.
    + intros (page' & _ & Hlook' & Hempty). congruence.
    + intros Hempty. exists page. split; [lia | done].
  - intros src. apply pdf_events_ocr.
Qed.

Lemma sample_pages_readable : Forall (page_readable sample_world) sample_pages.
Proof.
  unfold sample_pages.
  repeat apply List.Forall_cons; try apply List.Forall_nil;
    (split; [eexists; reflexivity|]).
  - discriminate.
  - intros _. exists 1, "scanned one". split; reflexivity.
  - discriminate.
  - intros _. exists 3, "scanned three". split; reflexivity.
Defined.

Lemma pdf_ocr_iff_empty_text_layer_witness :
  outcome (parse_pdf sample_world "/tmp/scan.pdf")
  = Ok (lit "Hello\nscanned one\n .\nscanned three\n")
  /\ EvToImage 1 ∈ trace (parse_pdf sample_world "/tmp/scan.pdf")
  /\ EvToImage 2 ∉ trace (parse_pdf sample_world "/tmp/scan.pdf").
Proof.
  destruct (pdf_ocr_iff_empty_text_layer sample_world "/tmp/scan.pdf"
              sample_pages eq_refl sample_pages_readable)
    as (Hout & _ & _ & Hraster & _).
  split; [exact Hout|]. split.
  - apply (Hraster 1 {| extract_text := Ok (Some ""); to_image := Ok 1 |});
      reflexivity.
  - intros Hin.
    apply (Hraster 2 {| extract_text := Ok (Some " ."); to_image := Ok 2 |})
      in Hin; [discriminate | reflexivity].
Defined.

(** *** Paths *)

Lemma length_append (s t : string) :
  String.length (s +:+ t) = String.length s + String.length t.
Proof.
  induction s as [|c s IH]; [done|]. rewrite append_cons. cbn. by rewrite IH.
Qed.

Lemma occurs_append (c : ascii) (s t : string) :
  occurs c (s +:+ t) = occurs c s || occurs c t.
Proof.
  induction s as [|d s IH]; [done|].
  rewrite append_cons. cbn. by rewrite IH, orb_assoc.
Qed.

Lemma rfind_aux_absent (c : ascii) (s : string) (i found : Z) :
  occurs c s = false -> rfind_aux c s i found = found.
Proof.
  revert i found. induction s as [|d s IH]; intros i found; [done|].
  cbn. intros [Hd Hs]%orb_false_elim. rewrite Hd. by apply IH.
Qed.

Lemma rfind_aux_append (c : ascii) (s t : string) (i found : Z) :
  rfind_aux c (s +:+ t) i found
  = rfind_aux c t (i + Z.of_nat (String.length s)) (rfind_aux c s i found).
Proof.
  revert i found. induction s as [|d s IH]; intros i found.
  - cbn. by rewrite Z.add_0_r.
  - rewrite append_cons. cbn [rfind_aux String.length]. rewrite IH.
    f_equal. lia.
Qed.

Lemma rfind_aux_bound (c : ascii) (s : string) (i found : Z) :
  (found < i)%Z ->
  (found <= rfind_aux c s i found < i + Z.of_nat (String.length s))%Z.
Proof.
  revert i found. induction s as [|d s IH]; intros i found Hlt.
  - cbn. lia.
  - cbn [rfind_aux String.length].
    destruct (Ascii.eqb d c).
    + specialize (IH (i + 1)%Z i). lia.
    + specialize (IH (i + 1)%Z found). lia.
Qed.

Lemma splitext_scan_finds (p : string) (j : nat) (d : ascii) :
  String.get j p = Some d -> d <> "."%char ->
  forall n start, start <= j < start + n -> splitext_scan p start n = true.
Proof.
  intros Hget Hd. induction n as [|n IH]; intros start Hrange; [lia|].
  cbn [splitext_scan].
  destruct (String.get start p) as [c|] eqn:Hc; [|done].
  destruct (Ascii.eqb_spec c "."%char) as [->|]; [|done].
  apply IH. destruct (decide (start = j)) as [->|]; [congruence | lia].
Qed.

Lemma has_non_dot_get (s : string) :
  has_non_dot s = true ->
  exists k d, String.get k s = Some d /\ d <> "."%char.
Proof.
  induction s as [|c s IH]; [done|]. cbn [has_non_dot].
  destruct (Ascii.eqb_spec c "."%char) as [->|Hne].
  - intros (k & d & Hget & Hd)%IH. by exists (S k), d.
  - intros _. by exists 0, c.
Qed.

Lemma get_append_r (s t : string) (k : nat) :
  String.get (String.length s + k) (s +:+ t) = String.get k t.
Proof.
  induction s as [|c s IH]; [done|]. by rewrite append_cons.
Qed.

Lemma get_append_l (s t : string) (k : nat) (d : ascii) :
  String.get k s = Some d -> String.get k (s +:+ t) = Some d.
Proof.
  revert k. induction s as [|c s IH]; intros k; [done|].
  rewrite append_cons. destruct k; [done|]. apply IH.
Qed.

Lemma get_lt_length (s : string) (k : nat) (d : ascii) :
  String.get k s = Some d -> k < String.length s.
Proof.
  revert k. induction s as [|c s IH]; intros k; [done|].
  destruct k; cbn; [lia|]. intros ?%IH. lia.
Qed.

Lemma substring_append_l (s t : string) :
  String.substring 0 (String.length s) (s +:+ t) = s.
Proof.
  induction s as [|c s IH]; [by destruct t|].
  rewrite append_cons. cbn. by rewrite IH.
Qed.

Lemma substring_all (t : string) :
  String.substring 0 (String.length t) t = t.
Proof. induction t as [|c t IH]; [done|]. cbn. by rewrite IH. Qed.

Lemma substring_append_r (s t : string) :
  String.substring (String.length s) (String.length t) (s +:+ t) = t.
Proof.
  induction s as [|c s IH]; [apply substring_all|].
  by rewrite append_cons.
Qed.

(** A path made of any prefix, a base name without slash that is not
    made of dots only, a dot and an extension without dot or slash splits
    at that last dot. *)
Lemma splitext_extension (pre base ext : string) :
  occurs "/" base = false -> has_non_dot base = true ->
  occurs "/" ext = false -> occurs "." ext = false ->
  splitext (pre +:+ base +:+ String "." ext)
  = (pre +:+ base, String "." ext).
Proof.
  intros Hbase Hnondot Hext_sep Hext_dot.
  set (stem := pre +:+ base).
  assert (Hpath : pre +:+ base +:+ String "." ext = stem +:+ String "." ext).
  { unfold stem. by rewrite append_assoc. }
  assert (Hdot : rfind "." (pre +:+ base +:+ String "." ext)
                 = Z.of_nat (String.length stem)).
  { rewrite Hpath. unfold rfind. rewrite rfind_aux_append.
    cbn [rfind_aux Ascii.eqb Bool.eqb]. by rewrite rfind_aux_absent. }
  assert (Hsep : (-1 <= rfind "/" (pre +:+ base +:+ String "." ext)
                  < Z.of_nat (String.length pre))%Z).
  { unfold rfind. rewrite rfind_aux_append.
    rewrite (rfind_aux_absent _ (base +:+ _)).
    - apply (rfind_aux_bound "/" pre 0 (-1)). lia.
    - rewrite occurs_append, Hbase. cbn. by rewrite Hext_sep. }
  destruct (has_non_dot_get base Hnondot) as (k & d & Hget & Hd).
  assert (Hlen : String.length stem = String.length pre + String.length base).
  { apply length_append. }
  pose proof (get_lt_length _ _ _ Hget) as Hk.
  unfold splitext. rewrite Hdot.
  destruct (Z.ltb_spec (rfind "/" (pre +:+ base +:+ String "." ext))
              (Z.of_nat (String.length stem))) as [_|]; [|lia].
  rewrite (splitext_scan_finds _ (String.length pre + k) d).
  - rewrite Hpath, Nat2Z.id, substring_append_l, length_append.
    replace (String.length stem + String.length (String "." ext)
             - String.length stem)
      with (String.length (String "." ext)) by lia.
    by rewrite substring_append_r.
  - rewrite get_append_r. by apply get_append_l.
  - done.
  - lia.
Qed.

(** *** Case variants *)

Lemma same_letter_cases (a b : ascii) :
  same_letter a b = true ->
  a = b
  \/ (65 <= nat_of_ascii a <= 90 /\ nat_of_ascii b = nat_of_ascii a + 32)
  \/ (65 <= nat_of_ascii b <= 90 /\ nat_of_ascii a = nat_of_ascii b + 32).
Proof.
  unfold same_letter. intros [Heq | [H | H]%orb_prop]%orb_prop.
  - left. by apply Ascii.eqb_eq.
  - right. left.
    apply andb_prop in H as [[H1 H2]%andb_prop H3].
    apply Nat.leb_le in H1, H2. apply Nat.eqb_eq in H3. lia.
  - right. right.
    apply andb_prop in H as [[H1 H2]%andb_prop H3].
    apply Nat.leb_le in H1, H2. apply Nat.eqb_eq in H3. lia.
Qed.

Lemma lower_char_upper (a : ascii) :
  65 <= nat_of_ascii a <= 90 ->
  lower_char a = ascii_of_nat (nat_of_ascii a + 32).
Proof.
  intros [H1 H2]. unfold lower_char.
  apply Nat.leb_le in H1, H2. by rewrite H1, H2.
Qed.

Lemma same_letter_lower (a b : ascii) :
  same_letter a b = true -> lower_char b = b -> lower_char a = b.
Proof.
  intros [-> | [[Ha Hb] | [Hb Ha]]]%same_letter_cases Hlow; [done | |].
  - by rewrite lower_char_upper, <- Hb, ascii_nat_embedding.
  - rewrite lower_char_upper in Hlow by done.
    apply (f_equal nat_of_ascii) in Hlow.
    rewrite nat_ascii_embedding in Hlow by lia. lia.
Qed.

Lemma same_letter_eqb (a b c : ascii) :
  same_letter a b = true ->
  nat_of_ascii c < 65 ->
  Ascii.eqb a c = Ascii.eqb b c.
Proof.
  intros [-> | [[Ha Hb] | [Hb Ha]]]%same_letter_cases Hc; [done | |].
  all: destruct (Ascii.eqb_spec a c) as [->|]; [lia|].
  all: destruct (Ascii.eqb_spec b c) as [->|]; [lia | done].
Qed.

Lemma case_variant_lower (e t : string) :
  case_variant e t = true -> lower t = t -> lower e = t.
Proof.
  revert t. induction e as [|a e IH]; intros [|b t]; try done.
  cbn [case_variant lower]. intros [Hab Het]%andb_prop [= Hb Ht].
  f_equal; [by apply same_letter_lower | by apply IH].
Qed.

Lemma case_variant_occurs (c : ascii) (e t : string) :
  case_variant e t = true -> nat_of_ascii c < 65 ->
  occurs c e = occurs c t.
Proof.
  intros Het Hc. revert t Het.
  induction e as [|a e IH]; intros [|b t]; try done.
  cbn [case_variant occurs]. intros [Hab Het]%andb_prop.
  by rewrite (same_letter_eqb a b c), (IH t).
Qed.

Lemma case_variant_dot (e t : string) :
  case_variant e (String "." t) = true ->
  exists ext, e = String "." ext /\ case_variant ext t = true.
Proof.
  destruct e as [|a e]; [done|]. cbn [case_variant].
  intros [Ha Het]%andb_prop. exists e. split; [|done]. f_equal.
  apply same_letter_cases in Ha as [-> | [[Ha Hb] | [Hb Ha]]]; [done | |];
    change (nat_of_ascii ".") with 46 in *; lia.
Qed.

(** The extension of a name that ends in a case variant of a lower-case
    extension [.t]. *)
Lemma splitext_variant (pre base e t : string) :
  occurs "/" base = false -> has_non_dot base = true ->
  occurs "/" t = false -> occurs "." t = false ->
  case_variant e (String "." t) = true ->
  snd (splitext (pre +:+ base +:+ e)) = e.
Proof.
  intros Hbase Hnondot Hsep Hdot Hvar.
  destruct (case_variant_dot e t Hvar) as (ext & -> & Hext).
  rewrite splitext_extension; try done.
  - rewrite (case_variant_occurs "/" ext t); [done | done |].
    change (nat_of_ascii "/") with 47. lia.
  - rewrite (case_variant_occurs "." ext t); [done | done |].
    change (nat_of_ascii ".") with 46. lia.
Qed.

(** C10. The extension is compared in lower case: for a file that is not
    empty and sniffs as [text/plain], when the extension of the name is
    any case variant of [.csv] the CSV parser is called and the resolved
    type is [text/csv], and when it is any case variant of [.md] the
    Markdown parser is called and the resolved type is [text/markdown].
    The extension is that case variant whenever the name is a base name
    (one that is not made of dots only) followed by it. *)
Theorem extension_case_insensitive (w : World) (file_path : string)
  (size : Z) :
  os_path_getsize w file_path = Ok size -> size <> 0%Z ->
  magic_from_file w file_path = Ok "text/plain" ->
  (case_variant (snd (splitext file_path)) ".csv" = true ->
   invokes w file_path Parse_csv "text/csv")
  /\ (case_variant (snd (splitext file_path)) ".md" = true ->
      invokes w file_path Parse_markdown "text/markdown")
  /\ (forall pre base e,
        file_path = pre +:+ base +:+ e ->
        occurs "/" base = false -> has_non_dot base = true ->
        case_variant e ".csv" = true \/ case_variant e ".md" = true ->
        snd (splitext file_path) = e).
Proof.
  intros Hsize Hnz Hmime. split; [|split].
  - intros Hvar. eapply select_invokes; eauto.
    unfold file_extension_of. by rewrite (case_variant_lower _ ".csv").
  - intros Hvar. eapply select_invokes; eauto.
    unfold file_extension_of. by rewrite (case_variant_lower _ ".md").
  - intros pre base e -> Hbase Hnondot [Hvar | Hvar].
    + by apply (splitext_variant pre base e "csv").
    + by apply (splitext_variant pre base e "md").
Qed.

Lemma extension_case_insensitive_witness :
  invokes sample_world "/tmp/data.CSV" Parse_csv "text/csv"
  /\ invokes sample_world "/tmp/notes.Md" Parse_markdown "text/markdown"
  /\ snd (splitext "/tmp/data.CSV") = ".CSV".
Proof.
  split; [|split].
  - destruct (extension_case_insensitive sample_world "/tmp/data.CSV" 12)
      as (H & _); [reflexivity | lia | reflexivity |].
    apply H. reflexivity.
  - destruct (extension_case_insensitive sample_world "/tmp/notes.Md" 12)
      as (_ & H & _); [reflexivity | lia | reflexivity |].
    apply H. reflexivity.
  - destruct (extension_case_insensitive sample_world "/tmp/data.CSV" 12)
      as (_ & _ & H); [reflexivity | lia | reflexivity |].
    apply (H "/tmp/" "data" ".CSV"); try reflexivity. by left.
Defined.

(** A dot file has no extension for [os.path.splitext], so a file named
    [.csv] keeps [text/plain]. *)
Example dot_file_keeps_text_plain :
  invokes sample_world "/tmp/.csv" Parse_text "text/plain".
Proof. split; reflexivity. Qed.

(** *** The XLSX parser *)

Lemma xlsx_rows_terminated (rows : list (list cell_value)) (text : string) :
  xlsx_rows rows text = text +:+ newline_terminated (map xlsx_row rows).
Proof.
  revert text. induction rows as [|row rest IH]; intros text.
  - cbn [xlsx_rows map newline_terminated]. by rewrite append_nil_r.
  - cbn [xlsx_rows map newline_terminated]. by rewrite IH, !append_assoc.
Qed.

Lemma newline_terminated_app (xs ys : list string) :
  newline_terminated (xs ++ ys)
  = newline_terminated xs +:+ newline_terminated ys.
Proof.
  induction xs as [|x xs IH]; [done|].
  cbn [app newline_terminated]. by rewrite IH, !append_assoc.
Qed.

Lemma xlsx_sheets_terminated (workbook : list (list (list cell_value)))
  (text : string) :
  xlsx_sheets workbook text
  = text +:+ newline_terminated (map xlsx_row (concat workbook)).
Proof.
  revert text. induction workbook as [|sheet rest IH]; intros text.
  - cbn [xlsx_sheets concat map newline_terminated]. by rewrite append_nil_r.
  - cbn [xlsx_sheets concat]. rewrite IH, xlsx_rows_terminated.
    by rewrite map_app, newline_terminated_app, append_assoc.
Qed.

(** Sheets in workbook order, rows in order, each row followed by a
    newline. *)
Lemma parse_xlsx_rows (w : World) (file_path : string)
  (workbook : list (list (list cell_value))) :
  load_workbook w file_path = Ok workbook ->
  parse_xlsx w file_path
  = ([], Ok (newline_terminated (map xlsx_row (concat workbook)))).
Proof.
  intros Hload. unfold parse_xlsx, parse_xlsx_body, lift. rewrite Hload.
  cbn [bind ret try_except app]. by rewrite xlsx_sheets_terminated, append_nil_l.
Qed.

(** X14. On a workbook whose non-empty cells all have a true value (no zero,
    no [False]), the parser gives the text of the specification. *)
Lemma parse_xlsx_meets_spec (w : World) (file_path : string)
  (workbook : list (list (list cell_value))) :
  load_workbook w file_path = Ok workbook ->
  Forall (Forall (Forall (fun v => cell_truth v = cell_non_empty v))) workbook ->
  parse_xlsx w file_path = ([], Ok (xlsx_text_spec workbook)).
Proof.
  intros Hload Hcells. rewrite (parse_xlsx_rows w file_path workbook) by done.
  unfold xlsx_text_spec. do 3 f_equal.
  apply Forall_concat in Hcells.
  induction Hcells as [|row rows Hrow _ IH]; [done|].
  cbn [map]. rewrite IH. f_equal.
  unfold xlsx_row, xlsx_row_spec. do 2 f_equal.
  induction Hrow as [|v row' Hv _ IHrow]; [done|].
  cbn [List.filter]. by rewrite Hv, IHrow.
Qed.

(** C8. The XLSX parser on the workbook of [/tmp/book.xlsx], whose first
    row holds the numbers 1, 0 and 2: the cell that holds 0 is not empty,
    yet the parser leaves it out, because it keeps the cells whose value
    is true; the specification has the row as [1 0 2], tab-joined. *)
Theorem parse_xlsx_drops_zero_cell :
  load_workbook sample_world "/tmp/book.xlsx"
  = Ok [[[CInt 1; CInt 0; CInt 2]; [CStr "x"; CNone; CStr "y"]];
        [[CBool true]]]
  /\ parse_xlsx sample_world "/tmp/book.xlsx"
     = ([], Ok (lit "1\t2\nx\ty\nTrue\n"))
  /\ xlsx_text_spec [[[CInt 1; CInt 0; CInt 2]; [CStr "x"; CNone; CStr "y"]];
                     [[CBool true]]]
     = lit "1\t0\t2\nx\ty\nTrue\n".
Proof. split; [|split]; reflexivity. Qed.

(** *** What [clean_text] keeps *)

Lemma visible_append (s t : string) :
  visible (s +:+ t) = visible s +:+ visible t.
Proof.
  induction s as [|c s IH]; [done|]. rewrite append_cons. cbn [visible].
  destruct (is_space c); [done|]. by rewrite append_cons, IH.
Qed.

Lemma visible_collapse (s : string) :
  visible (collapse_newlines s) = visible s.
Proof.
  induction s as [|c s IH]; [done|]. cbn [collapse_newlines]. unfold is_nl.
  destruct (Ascii.eqb_spec c LF) as [->|Hc].
  - destruct s as [|d r]; [done|].
    destruct (Ascii.eqb d LF); [exact IH|].
    cbn [visible] in *. change (is_space LF) with true. cbn match. exact IH.
  - cbn [visible]. by rewrite IH.
Qed.

Lemma visible_lstrip (s : string) : visible (lstrip s) = visible s.
Proof.
  induction s as [|c s IH]; [done|]. cbn [lstrip visible].
  destruct (is_space c) eqn:Hc; [done|]. cbn [visible]. by rewrite Hc.
Qed.

Lemma visible_rstrip (s : string) : visible (rstrip s) = visible s.
Proof.
  induction s as [|c s IH]; [done|]. cbn [rstrip visible].
  destruct (rstrip s) as [|d r].
  - cbn [visible] in IH. rewrite <- IH.
    destruct (is_space c) eqn:Hc; [done|]. cbn [visible]. by rewrite Hc.
  - cbn [visible]. by rewrite <- IH.
Qed.

Lemma visible_strip (s : string) : visible (strip s) = visible s.
Proof. unfold strip. by rewrite visible_rstrip, visible_lstrip. Qed.

Lemma visible_join (ls : list string) :
  visible (join nl ls) = concat_strings (map visible ls).
Proof.
  induction ls as [|l rest IH]; [done|].
  destruct rest as [|l' rest'].
  - change (join nl [l]) with l. cbn [map concat_strings].
    by rewrite append_nil_r.
  - rewrite join_cons, !visible_append, IH. reflexivity.
Qed.

Lemma join_split_nl (s : string) : join nl (split_nl s) = s.
Proof.
  induction s as [|c s IH]; [done|]. cbn [split_nl]. unfold is_nl.
  destruct (split_nl_cons s) as (l & ls & Hs). rewrite Hs in *.
  destruct (Ascii.eqb_spec c LF) as [->|Hc].
  - rewrite join_cons, IH. reflexivity.
  - destruct ls as [|l' ls'].
    + change (join nl [String c l]) with (String c l).
      change (join nl [l]) with l in IH. by rewrite IH.
    + rewrite join_cons, append_cons. rewrite join_cons in IH. by rewrite IH.
Qed.

Lemma visible_split_nl (s : string) :
  concat_strings (map visible (split_nl s)) = visible s.
Proof. by rewrite <- visible_join, join_split_nl. Qed.

Lemma visible_clean_text (s : string) :
  visible (clean_text s) = visible s.
Proof.
  unfold clean_text. cbv zeta.
  rewrite visible_strip, visible_join, map_map.
  rewrite <- (visible_collapse s), <- visible_split_nl.
  f_equal. apply map_ext. intros l. apply visible_strip.
Qed.

Lemma trimmed_visible_empty (s : string) :
  trimmed s -> visible s = "" -> s = "".
Proof.
  destruct s as [|c s]; [done|]. intros [Hstart _]. cbn in Hstart.
  cbn [visible]. by rewrite Hstart.
Qed.

(** X4. The output of [clean_text] is empty exactly when the input holds
    whitespace only. *)
Theorem clean_text_empty_iff (s : string) :
  clean_text s = "" <-> visible s = "".
Proof.
  split.
  - intros Hclean. by rewrite <- visible_clean_text, Hclean.
  - intros Hvis. apply trimmed_visible_empty; [apply clean_text_trimmed|].
    by rewrite visible_clean_text.
Qed.

Lemma clean_text_empty_iff_witness :
  clean_text (lit " \n\t \r\n") = "".
Proof. apply clean_text_empty_iff. reflexivity. Defined.

(** *** The length of the output *)

Lemma length_collapse (s : string) :
  String.length (collapse_newlines s) <= String.length s.
Proof.
  induction s as [|c s IH]; [done|]. cbn [collapse_newlines].
  destruct (is_nl c).
  - destruct s as [|d r]; [done|].
    destruct (is_nl d); cbn [String.length] in *; lia.
  - cbn [String.length]. lia.
Qed.

Lemma length_lstrip (s : string) :
  String.length (lstrip s) <= String.length s.
Proof.
  induction s as [|c s IH]; [done|]. cbn [lstrip].
  destruct (is_space c); cbn [String.length]; lia.
Qed.

Lemma length_rstrip (s : string) :
  String.length (rstrip s) <= String.length s.
Proof.
  induction s as [|c s IH]; [done|]. cbn [rstrip].
  destruct (rstrip s) as [|d r].
  - destruct (is_space c); cbn [String.length]; lia.
  - cbn [String.length] in *. lia.
Qed.

Lemma length_strip (s : string) :
  String.length (strip s) <= String.length s.
Proof.
  unfold strip. pose proof (length_rstrip (lstrip s)).
  pose proof (length_lstrip s). lia.
Qed.

Lemma length_join_strip (ls : list string) :
  String.length (join nl (map strip ls)) <= String.length (join nl ls).
Proof.
  induction ls as [|l rest IH]; [done|].
  pose proof (length_strip l) as Hl.
  destruct rest as [|l' rest']; [exact Hl|].
  change (map strip (l :: l' :: rest'))
    with (strip l :: strip l' :: map strip rest').
  rewrite !join_cons, !length_append.
  change (map strip (l' :: rest')) with (strip l' :: map strip rest') in IH.
  lia.
Qed.

(** X5. The output of [clean_text] is never longer than its input. *)
Theorem clean_text_never_longer (s : string) :
  String.length (clean_text s) <= String.length s.
Proof.
  unfold clean_text. cbv zeta.
  pose proof (length_strip
                (join nl (map strip (split_nl (collapse_newlines s))))).
  pose proof (length_join_strip (split_nl (collapse_newlines s))) as Hjoin.
  rewrite join_split_nl in Hjoin.
  pose proof (length_collapse s). lia.
Qed.

(** *** Leading and trailing empty lines *)

Lemma clean_lines_nl_append (s : string) :
  clean_lines (nl +:+ s) = clean_lines s.
Proof.
  unfold clean_lines. change (nl +:+ s) with (String LF s).
  cbn [collapse_newlines]. change (is_nl LF) with true. cbn match.
  destruct s as [|d r]; [done|].
  destruct (is_nl d) eqn:Hd; [done|].
  cbn [split_nl]. change (is_nl LF) with true. cbn match.
  reflexivity.
Qed.

Lemma clean_text_nl_append (s : string) :
  clean_text (nl +:+ s) = clean_text s.
Proof. by rewrite !clean_text_join, clean_lines_nl_append. Qed.

Lemma clean_text_drop_leading (ls : list string) :
  clean_text (join nl ls) = clean_text (join nl (drop_leading_empty ls)).
Proof.
  induction ls as [|l rest IH]; [done|].
  destruct l as [|c l]; [|done].
  cbn [drop_leading_empty]. rewrite <- IH.
  destruct rest as [|l' rest']; [done|].
  rewrite join_cons, append_nil_l. apply clean_text_nl_append.
Qed.

Lemma join_app_empty (ls : list string) :
  ls <> [] -> join nl (ls ++ [""]) = join nl ls +:+ nl.
Proof.
  induction ls as [|l rest IH]; [done|]. intros _.
  destruct rest as [|l' rest'].
  - reflexivity.
  - change ((l :: l' :: rest') ++ [""]) with (l :: ((l' :: rest') ++ [""])).
    rewrite (join_cons_nonempty l) by by destruct rest'.
    rewrite IH by done. rewrite join_cons. by rewrite !append_assoc.
Qed.

Lemma clean_text_app_empty (ls : list string) :
  clean_text (join nl (ls ++ [""])) = clean_text (join nl ls).
Proof.
  destruct ls as [|l rest]; [done|].
  by rewrite join_app_empty, clean_text_append_nl.
Qed.

Lemma drop_trailing_empty_split (ls : list string) :
  exists k, ls = drop_trailing_empty ls ++ replicate k "".
Proof.
  induction ls as [|l rest (k & IH)]; [by exists 0|].
  cbn [drop_trailing_empty].
  destruct (drop_trailing_empty rest) as [|x xs].
  - destruct l as [|c l].
    + exists (S k). cbn in *. by rewrite IH.
    + exists k. cbn in *. by rewrite IH.
  - exists k. cbn in *. by rewrite IH.
Qed.

Lemma clean_text_app_replicate (ls : list string) (k : nat) :
  clean_text (join nl (ls ++ replicate k ""))
  = clean_text (join nl ls).
Proof.
  induction k as [|k IH]; [by rewrite app_nil_r|].
  rewrite replicate_S_end, app_assoc, clean_text_app_empty. exact IH.
Qed.

Lemma clean_text_drop_trailing (ls : list string) :
  clean_text (join nl ls) = clean_text (join nl (drop_trailing_empty ls)).
Proof.
  destruct (drop_trailing_empty_split ls) as (k & Hk).
  rewrite Hk at 1. apply clean_text_app_replicate.
Qed.

Lemma non_empty_lines_drop_leading (ls : list string) :
  non_empty_lines (drop_leading_empty ls) = non_empty_lines ls.
Proof. induction ls as [|[|c l] rest IH]; done. Qed.

Lemma non_empty_lines_drop_trailing (ls : list string) :
  non_empty_lines (drop_trailing_empty ls) = non_empty_lines ls.
Proof.
  induction ls as [|l rest IH]; [done|]. cbn [drop_trailing_empty].
  destruct (drop_trailing_empty rest) as [|x xs] eqn:Hrest.
  - destruct l as [|c l].
    + change (non_empty_lines ("" :: rest)) with (non_empty_lines rest).
      exact IH.
    + change (non_empty_lines (String c l :: rest))
        with (String c l :: non_empty_lines rest). by rewrite <- IH.
  - destruct l as [|c l].
    + change (non_empty_lines ("" :: rest)) with (non_empty_lines rest).
      exact IH.
    + change (non_empty_lines (String c l :: rest))
        with (String c l :: non_empty_lines rest). by rewrite <- IH.
Qed.

(** Lines that are trimmed and hold no newline come out of [clean_text]
    without the empty ones, joined by newlines. *)
Lemma clean_text_of_lines (ls : list string) :
  Forall (fun l => trimmed l /\ occurs LF l = false) ls ->
  clean_text (join nl ls) = join nl (non_empty_lines ls).
Proof.
  intros Hls.
  rewrite clean_text_drop_leading, clean_text_drop_trailing.
  rewrite clean_text_of_join.
  - by rewrite non_empty_lines_drop_trailing, non_empty_lines_drop_leading.
  - by apply drop_trailing_empty_Forall, drop_leading_empty_Forall.
  - apply drop_trailing_empty_head, drop_leading_empty_head.
  - apply drop_trailing_empty_last.
Qed.

Lemma clean_text_of_terminated_lines (ls : list string) :
  Forall (fun l => trimmed l /\ occurs LF l = false) ls ->
  clean_text (newline_terminated ls) = join nl (non_empty_lines ls).
Proof.
  intros Hls. by rewrite clean_text_newline_terminated, clean_text_of_lines.
Qed.

(** X6. The texts that [clean_text] leaves as they are: the empty text and
    the texts whose lines are all non-empty and trimmed. *)
Theorem clean_text_fixed_points (s : string) :
  clean_text s = s
  <-> s = "" \/ Forall (fun l => l <> "" /\ trimmed l) (split_nl s).
Proof.
  split.
  - intros Hfix.
    assert (Htwice : s = join nl (non_empty_lines (clean_lines s))).
    { rewrite <- clean_text_twice. by rewrite !Hfix. }
    pose proof (non_empty_lines_non_empty (clean_lines s)) as Hne.
    pose proof (non_empty_lines_Forall _ _ (clean_lines_trimmed s)) as Hls.
    apply Forall_and in Hls as [Htrim Hnl].
    destruct (non_empty_lines (clean_lines s)) as [|l ls] eqn:Heq.
    + by left.
    + right. rewrite Htwice, split_nl_join by done.
      apply Forall_and. by split.
  - intros [-> | Hlines]; [done|].
    apply Forall_and in Hlines as [Hne Htrim].
    rewrite <- (join_split_nl s) at 1.
    rewrite clean_text_of_lines.
    + by rewrite non_empty_lines_id, join_split_nl.
    + apply Forall_and. split; [done | apply split_nl_no_nl].
Qed.

Lemma clean_text_fixed_points_witness :
  clean_text (lit "a b\nc") = lit "a b\nc".
Proof.
  apply clean_text_fixed_points. right.
  repeat apply List.Forall_cons; try apply List.Forall_nil;
    (split; [discriminate | split; reflexivity]).
Defined.

(** *** A page that cannot be read *)

Lemma pdf_loop_app_readable (w : World) (before rest : list Page) :
  Forall (page_readable w) before ->
  forall (i : nat) (text : string),
    pdf_loop w i (before ++ rest) text
    = (pdf_events i before
         ++ trace (pdf_loop w (i + length before) rest
                     (text +:+ newline_terminated (map (page_output w) before))),
       outcome (pdf_loop w (i + length before) rest
                  (text +:+ newline_terminated (map (page_output w) before)))).
Proof.
  induction 1 as [|page before' [[o Ho] Hocr] _ IH]; intros i text.
  - cbn [app pdf_events map newline_terminated length].
    rewrite Nat.add_0_r, append_nil_r. by destruct (pdf_loop w i rest text).
  - cbn [app pdf_loop pdf_events map newline_terminated length].
    rewrite Ho, bind_call_ok.
    assert (Hlayer : text_layer page = default "" o).
    { unfold text_layer. rewrite Ho. by destruct o. }
    assert (Htruth : opt_str_truth o = str_truth (text_layer page)).
    { rewrite Hlayer. by destruct o. }
    unfold page_output. rewrite Htruth.
    replace (i + S (length before')) with (S i + length before') by lia.
    destruct (str_truth (text_layer page)) eqn:Hcase.
    + rewrite IH, <- Hlayer. cbn [trace outcome fst snd app].
      by rewrite !append_assoc.
    + apply str_truth_false in Hcase.
      destruct (Hocr Hcase) as (im & t & Him & Ht).
      assert (Himage : image_of page = im) by (unfold image_of; by rewrite Him).
      unfold ocr_text. rewrite Himage, Him, bind_call_ok, Ht, bind_call_ok, IH.
      cbn [trace outcome fst snd app]. by rewrite !append_assoc.
Qed.

Lemma pdf_loop_failing_page (w : World) (page : Page) (e : exn) :
  page_failure w page = Some e ->
  forall (i : nat) (rest : list Page) (text : string),
    pdf_loop w i (page :: rest) text = (failing_page_events i page, Raised e).
Proof.
  unfold page_failure, failing_page_events. intros Hfail i rest text.
  cbn [pdf_loop].
  destruct (extract_text page) as [o|e1].
  - rewrite bind_call_ok.
    destruct (opt_str_truth o); [discriminate|].
    destruct (to_image page) as [im|e2].
    + rewrite bind_call_ok.
      destruct (image_to_string w (OcrImage im)) as [t|e3]; [discriminate|].
      injection Hfail as ->. reflexivity.
    + injection Hfail as ->. reflexivity.
  - injection Hfail as ->. reflexivity.
Qed.

Lemma pdf_events_extract_bound (pages : list Page) (i j : nat) :
  EvExtractText j ∈ pdf_events i pages -> i <= j < i + length pages.
Proof.
  revert i. induction pages as [|page rest IH]; intros i.
  - by intros ?%elem_of_nil.
  - cbn [pdf_events length]. rewrite elem_of_app, elem_of_cons.
    intros [[[= ->] | Hin] | Hin].
    + lia.
    + destruct (str_truth (text_layer page)).
      * by apply elem_of_nil in Hin.
      * apply elem_of_cons in Hin as [[=] | Hin].
        apply elem_of_cons in Hin as [[=] | Hin].
        by apply elem_of_nil in Hin.
    + apply IH in Hin. lia.
Qed.

Lemma failing_page_events_extract (page : Page) (i j : nat) :
  EvExtractText j ∈ failing_page_events i page -> j = i.
Proof.
  unfold failing_page_events.
  destruct (extract_text page); [destruct (to_image page)|];
    rewrite ?elem_of_cons, elem_of_nil; intros H;
    repeat (destruct H as [H | H]; [by (discriminate || injection H)|]);
    done.
Qed.

(** X9. When a page cannot be read (its text extraction, its rasterisation
    or its OCR raises) after pages that can, the PDF parser raises
    [ParsingError] with the message of that exception, returns no text,
    not even that of the pages before, and makes no call on any later
    page. *)
Theorem parse_pdf_unreadable_page (w : World) (file_path : string)
  (before after : list Page) (page : Page) (e : exn) :
  pdfplumber_pages w file_path = Ok (before ++ page :: after) ->
  Forall (page_readable w) before ->
  page_failure w page = Some e ->
  parse_pdf w file_path
  = (pdf_events 0 before ++ failing_page_events (length before) page,
     Raised (ParsingError ("Error parsing PDF: " +:+ exn_str e)))
  /\ (forall j, length before < j ->
        EvExtractText j ∉ trace (parse_pdf w file_path)).
Proof.
  intros Hpages Hreadable Hfail.
  assert (Hrun : parse_pdf w file_path
                 = (pdf_events 0 before
                      ++ failing_page_events (length before) page,
                    Raised (ParsingError
                              ("Error parsing PDF: " +:+ exn_str e)))).
  { unfold parse_pdf, parse_pdf_body, lift. rewrite Hpages. cbn [bind].
    rewrite pdf_loop_app_readable by done.
    rewrite (pdf_loop_failing_page w page e) by done.
    cbn [trace outcome fst snd app]. by rewrite try_except_raised. }
  split; [exact Hrun|].
  intros j Hj. rewrite Hrun. cbn [trace fst].
  intros [Hin | Hin]%elem_of_app.
  - apply pdf_events_extract_bound in Hin. lia.
  - apply failing_page_events_extract in Hin. lia.
Qed.

Lemma parse_pdf_unreadable_page_witness :
  parse_pdf damaged_world "/tmp/scan.pdf"
  = ([EvExtractText 0; EvExtractText 1; EvToImage 1; EvOcr (OcrImage 7)],
     Raised (ParsingError "Error parsing PDF: cannot identify image file"))
  /\ EvExtractText 2 ∉ trace (parse_pdf damaged_world "/tmp/scan.pdf").
Proof.
  destruct (parse_pdf_unreadable_page damaged_world "/tmp/scan.pdf"
              [ {| extract_text := Ok (Some "Hello"); to_image := Ok 0 |} ]
              [ {| extract_text := Ok (Some "Bye"); to_image := Ok 2 |} ]
              {| extract_text := Ok None; to_image := Ok 7 |}
              (LibError "cannot identify image file"))
    as [Hrun Hlater]; [reflexivity | | reflexivity |].
  - apply List.Forall_cons; [|apply List.Forall_nil].
    split; [by eexists | discriminate].
  - split; [exact Hrun | apply Hlater; cbn; lia].
Defined.

(** *** The EPUB and PPTX parsers *)

Lemma pptx_slide_terminated (shapes : list (option string)) (text : string) :
  pptx_slide shapes text = text +:+ newline_terminated (shape_texts shapes).
Proof.
  revert text. induction shapes as [|[t|] rest IH]; intros text.
  - cbn [pptx_slide shape_texts newline_terminated]. by rewrite append_nil_r.
  - cbn [pptx_slide shape_texts newline_terminated].
    by rewrite IH, !append_assoc.
  - cbn [pptx_slide shape_texts]. apply IH.
Qed.

Lemma shape_texts_app (xs ys : list (option string)) :
  shape_texts (xs ++ ys) = shape_texts xs ++ shape_texts ys.
Proof.
  induction xs as [|[x|] xs IH]; [done | |]; cbn [app shape_texts];
    by rewrite ?IH.
Qed.

Lemma pptx_slides_terminated (slides : list (list (option string)))
  (text : string) :
  pptx_slides slides text
  = text +:+ newline_terminated (shape_texts (concat slides)).
Proof.
  revert text. induction slides as [|slide rest IH]; intros text.
  - cbn [pptx_slides concat shape_texts newline_terminated].
    by rewrite append_nil_r.
  - cbn [pptx_slides concat]. rewrite IH, pptx_slide_terminated.
    by rewrite shape_texts_app, newline_terminated_app, append_assoc.
Qed.

(** X10. The PPTX parser gives the texts of the shapes that have a text, in
    slide order then shape order, each followed by a newline; a shape
    without text leaves no trace in the output, not even an empty line. *)
Theorem parse_pptx_shapes_with_text (w : World) (file_path : string)
  (slides : list (list (option string))) :
  pptx_shapes w file_path = Ok slides ->
  parse_pptx w file_path
  = ([], Ok (newline_terminated (shape_texts (concat slides)))).
Proof.
  intros Hslides. unfold parse_pptx, parse_pptx_body, lift. rewrite Hslides.
  cbn [bind ret try_except app].
  by rewrite pptx_slides_terminated, append_nil_l.
Qed.

Lemma parse_pptx_shapes_with_text_witness :
  parse_pptx damaged_world "/tmp/deck.pptx"
  = ([], Ok (lit "Slide one\nSlide three\n")).
Proof.
  apply (parse_pptx_shapes_with_text damaged_world "/tmp/deck.pptx"
           [[Some "Slide one"; None]; []; [Some "Slide three"]]).
  reflexivity.
Defined.

Lemma epub_loop_readable (w : World) (items : list epub_item) :
  Forall (fun item => is_document item = true ->
                      exists t, soup_get_text w (get_content item) = Ok t)
    items ->
  forall text,
    epub_loop w items text
    = ([], Ok (text +:+ newline_terminated
                         (map (item_text w) (List.filter is_document items)))).
Proof.
  induction 1 as [|item rest Hitem _ IH]; intros text.
  - cbn. by rewrite append_nil_r.
  - cbn [epub_loop List.filter]. destruct (is_document item).
    + destruct Hitem as [t Ht]; [done|].
      unfold lift. rewrite Ht. cbn [bind]. rewrite IH.
      cbn [map newline_terminated app]. unfold item_text at 2. rewrite Ht.
      by rewrite !append_assoc.
    + apply IH.
Qed.

(** X11. The EPUB parser gives the visible text of the document items of the
    book, in book order, each followed by a newline; items of another
    kind (images, styles) are passed over. *)
Theorem parse_epub_document_items (w : World) (file_path : string)
  (items : list epub_item) :
  epub_items w file_path = Ok items ->
  Forall (fun item => is_document item = true ->
                      exists t, soup_get_text w (get_content item) = Ok t)
    items ->
  parse_epub w file_path
  = ([], Ok (newline_terminated
               (map (item_text w) (List.filter is_document items)))).
Proof.
  intros Hitems Hreadable. unfold parse_epub, parse_epub_body, lift.
  rewrite Hitems. cbn [bind]. by rewrite epub_loop_readable, append_nil_l.
Qed.

Lemma parse_epub_document_items_witness :
  parse_epub damaged_world "/tmp/book.epub"
  = ([], Ok (lit "Chapter 1\nChapter 2\n")).
Proof.
  apply (parse_epub_document_items damaged_world "/tmp/book.epub"
           [ {| is_document := true; get_content := "Chapter 1" |};
             {| is_document := false; get_content := "cover.png" |};
             {| is_document := true; get_content := "Chapter 2" |} ]);
    [reflexivity|].
  repeat apply List.Forall_cons; try apply List.Forall_nil;
    intros _; by eexists.
Defined.

Lemma epub_loop_app_readable (w : World) (before rest : list epub_item) :
  Forall (fun item => is_document item = true ->
                      exists t, soup_get_text w (get_content item) = Ok t)
    before ->
  forall text,
    epub_loop w (before ++ rest) text
    = epub_loop w rest
        (text +:+ newline_terminated
                    (map (item_text w) (List.filter is_document before))).
Proof.
  induction 1 as [|item before' Hitem _ IH]; intros text.
  - cbn. by rewrite append_nil_r.
  - cbn [app epub_loop List.filter]. destruct (is_document item).
    + destruct Hitem as [t Ht]; [done|].
      unfold lift. rewrite Ht. cbn [bind]. rewrite IH.
      cbn [map newline_terminated]. unfold item_text at 2. rewrite Ht.
      rewrite !append_assoc. by destruct (epub_loop w rest _).
    + apply IH.
Qed.

(** X12. A document item whose markup cannot be read makes the EPUB parser
    raise [ParsingError] and lose the text of the items read before
    it. *)
Theorem parse_epub_unreadable_item (w : World) (file_path : string)
  (before after : list epub_item) (item : epub_item) (e : exn) :
  epub_items w file_path = Ok (before ++ item :: after) ->
  Forall (fun item => is_document item = true ->
                      exists t, soup_get_text w (get_content item) = Ok t)
    before ->
  is_document item = true ->
  soup_get_text w (get_content item) = Raised e ->
  parse_epub w file_path
  = ([], Raised (ParsingError ("Error parsing EPUB: " +:+ exn_str e))).
Proof.
  intros Hitems Hreadable Hdoc Hfail. unfold parse_epub, parse_epub_body, lift.
  rewrite Hitems. cbn [bind]. rewrite epub_loop_app_readable by done.
  cbn [epub_loop]. rewrite Hdoc. unfold lift. rewrite Hfail. cbn [bind].
  by rewrite try_except_raised.
Qed.

Lemma parse_epub_unreadable_item_witness :
  parse_epub damaged_world "/tmp/bad.epub"
  = ([], Raised (ParsingError "Error parsing EPUB: malformed start tag")).
Proof.
  apply (parse_epub_unreadable_item damaged_world "/tmp/bad.epub"
           [ {| is_document := true; get_content := "Chapter 1" |} ]
           [ {| is_document := true; get_content := "Chapter 3" |} ]
           {| is_document := true; get_content := "<bad" |}
           (LibError "malformed start tag"));
    try reflexivity.
  apply List.Forall_cons; [|apply List.Forall_nil]. intros _. by eexists.
Defined.

(** *** What [process_document] can end with *)

Lemma parser_fn_outcome (p : parser) (w : World) (file_path : string) :
  (exists raw, outcome (parser_fn p w file_path) = Ok raw)
  \/ (exists m, outcome (parser_fn p w file_path)
                = Raised (ParsingError
                            ("Error parsing " +:+ format_name p +:+ ": " +:+ m))).
Proof.
  rewrite parser_fn_try_except.
  destruct (parser_body p w file_path) as [tr [raw|e]].
  - left. by exists raw.
  - right. exists (exn_str e). by rewrite try_except_raised.
Qed.

(** X15. Once the file has been sized and, when it is not empty, sniffed,
    [process_document] ends in one of three ways: a text with its type,
    [ParsingError] or [UnsupportedFileType]. No exception of a library
    comes out of it. *)
Theorem process_document_outcomes (w : World) (file_path : string)
  (size : Z) (mime : string) :
  os_path_getsize w file_path = Ok size ->
  (size <> 0%Z -> magic_from_file w file_path = Ok mime) ->
  (exists text t, outcome (process_document w file_path) = Ok (text, t))
  \/ (exists m, outcome (process_document w file_path)
                = Raised (ParsingError m))
  \/ (exists m, outcome (process_document w file_path)
                = Raised (UnsupportedFileType m)).
Proof.
  intros Hsize Hmime.
  destruct (Z.eq_dec size 0%Z) as [->|Hnz].
  { left. exists "", "inode/x-empty". by rewrite process_document_empty_nil. }
  rewrite (process_document_nonempty w file_path size mime) by auto.
  destruct (select_parser mime (file_extension_of file_path)) as [[p|] t].
  - cbn [outcome snd].
    destruct (parser_fn_outcome p w file_path) as [[raw ->] | [m ->]]; eauto.
  - right. right. by eexists.
Qed.

Lemma process_document_outcomes_witness :
  (exists text t,
     outcome (process_document sample_world "/tmp/broken.pdf") = Ok (text, t))
  \/ (exists m, outcome (process_document sample_world "/tmp/broken.pdf")
                = Raised (ParsingError m))
  \/ (exists m, outcome (process_document sample_world "/tmp/broken.pdf")
                = Raised (UnsupportedFileType m)).
Proof.
  apply (process_document_outcomes sample_world "/tmp/broken.pdf" 12
           "application/pdf"); reflexivity.
Defined.

(** X16. An exception raised when the file is sized (a file that is not
    there) or sniffed comes out of [process_document] as it is, not as a
    [ParsingError]; nothing is sniffed after a failed sizing and no
    parser is called after either. *)
Theorem process_document_io_failure (w : World) (file_path : string)
  (e : exn) :
  (os_path_getsize w file_path = Raised e ->
   process_document w file_path = ([EvGetsize file_path], Raised e))
  /\ (forall size,
        os_path_getsize w file_path = Ok size -> size <> 0%Z ->
        magic_from_file w file_path = Raised e ->
        process_document w file_path
        = ([EvGetsize file_path; EvSniff file_path], Raised e)).
Proof.
  split.
  - intros Hsize. unfold process_document. by rewrite Hsize.
  - intros size Hsize Hnz Hmime. unfold process_document.
    rewrite Hsize, bind_call_ok.
    destruct (Z.eqb_spec size 0%Z); [done|]. by rewrite Hmime.
Qed.

(** X17. The text that [process_document] returns is normalised at its
    edges: neither the text nor any of its lines starts or ends with
    whitespace. *)
Theorem process_document_text_trimmed (w : World) (file_path : string)
  (text t : string) :
  outcome (process_document w file_path) = Ok (text, t) ->
  trimmed text /\ Forall trimmed (split_nl text).
Proof.
  destruct (os_path_getsize w file_path) as [size|e] eqn:Hsize.
  2:{ unfold process_document. rewrite Hsize. discriminate. }
  destruct (Z.eq_dec size 0%Z) as [->|Hnz].
  { rewrite process_document_empty_nil by done. intros [= <- <-].
    split; [done | by repeat constructor]. }
  destruct (magic_from_file w file_path) as [mime|e] eqn:Hmime.
  2:{ unfold process_document. rewrite Hsize, bind_call_ok, Hmime.
      destruct (Z.eqb_spec size 0%Z); [done|]. discriminate. }
  rewrite (process_document_nonempty w file_path size mime) by done.
  destruct (select_parser mime (file_extension_of file_path)) as [[p|] t'];
    [|discriminate].
  cbn [outcome snd].
  destruct (outcome (parser_fn p w file_path)) as [raw|]; [|discriminate].
  intros [= <- <-].
  split; [apply clean_text_trimmed | apply clean_text_lines_trimmed].
Qed.

Lemma process_document_text_trimmed_witness :
  trimmed (lit "Hello\nscanned one\n.\nscanned three")
  /\ Forall trimmed (split_nl (lit "Hello\nscanned one\n.\nscanned three")).
Proof.
  apply (process_document_text_trimmed sample_world "/tmp/scan.pdf" _
           "application/pdf").
  reflexivity.
Defined.

(** *** A DOCX from end to end *)

(** X18. For a file that is not empty and sniffs as a DOCX, whose paragraphs
    are single lines without leading or trailing whitespace,
    [process_document] returns the paragraphs that are not empty, in
    document order, joined by newlines. *)
Theorem process_document_docx (w : World) (file_path : string) (size : Z)
  (paras : list string) :
  os_path_getsize w file_path = Ok size -> size <> 0%Z ->
  magic_from_file w file_path
  = Ok "application/vnd.openxmlformats-officedocument.wordprocessingml.document" ->
  docx_paragraphs w file_path = Ok paras ->
  Forall (fun para => trimmed para /\ occurs LF para = false) paras ->
  outcome (process_document w file_path)
  = Ok (join nl (non_empty_lines paras),
        "application/vnd.openxmlformats-officedocument.wordprocessingml.document").
Proof.
  intros Hsize Hnz Hmime Hparas Hlines.
  rewrite (process_document_nonempty w file_path size _ Hsize Hnz Hmime).
  rewrite select_other by discriminate.
  replace (parser_dispatcher_mime !! _) with (Some Parse_docx)
    by (vm_compute; reflexivity).
  cbn [outcome snd parser_fn]. unfold parse_docx, parse_docx_body, lift.
  rewrite Hparas. cbn [bind ret try_except snd app].
  change (outcome ([], Ok (join nl paras))) with (Ok (A := string) (join nl paras)).
  cbn match. by rewrite clean_text_of_lines.
Qed.

Lemma process_document_docx_witness :
  outcome (process_document damaged_world "/tmp/report.docx")
  = Ok (lit "Title\nFirst paragraph.",
        "application/vnd.openxmlformats-officedocument.wordprocessingml.document").
Proof.
  apply (process_document_docx damaged_world "/tmp/report.docx" 12
           ["Title"; ""; "First paragraph."; ""]);
    try reflexivity; [lia|].
  repeat apply List.Forall_cons; try apply List.Forall_nil;
    (split; [split|]; reflexivity).
Defined.

(** *** An image from end to end *)

(** X19. For a file that is not empty and sniffs as a JPEG, PNG or TIFF
    image, [process_document] runs OCR once, on the file itself, and
    returns the cleaned OCR text with the sniffed type; when OCR raises,
    it raises [ParsingError] with the message of that exception. *)
Theorem process_document_image (w : World) (file_path : string) (size : Z)
  (mime : string) :
  os_path_getsize w file_path = Ok size -> size <> 0%Z ->
  magic_from_file w file_path = Ok mime ->
  mime ∈ image_mime_types ->
  process_document w file_path
  = ([EvGetsize file_path; EvSniff file_path; EvCall Parse_image file_path;
      EvOcr (OcrPath file_path)],
     match image_to_string w (OcrPath file_path) with
     | Ok text => Ok (clean_text text, mime)
     | Raised e =>
         Raised (ParsingError ("Error parsing image: " +:+ exn_str e))
     end).
Proof.
  intros Hsize Hnz Hmime Hin.
  rewrite (process_document_nonempty w file_path size mime) by done.
  assert (Hsel : select_parser mime (file_extension_of file_path)
                 = (Some Parse_image, mime)).
  { unfold image_mime_types in Hin.
    rewrite !elem_of_cons, elem_of_nil in Hin.
    destruct Hin as [-> | [-> | [-> | []]]]; vm_compute; reflexivity. }
  rewrite Hsel. cbn [parser_fn]. unfold parse_image, parse_image_body, call.
  destruct (image_to_string w (OcrPath file_path)) as [text|e].
  - reflexivity.
  - rewrite try_except_raised. reflexivity.
Qed.

Lemma process_document_image_witness :
  process_document (blank_world 9 "image/png") "/tmp/scan.png"
  = ([EvGetsize "/tmp/scan.png"; EvSniff "/tmp/scan.png";
      EvCall Parse_image "/tmp/scan.png"; EvOcr (OcrPath "/tmp/scan.png")],
     Ok ("", "image/png")).
Proof.
  apply (process_document_image (blank_world 9 "image/png") "/tmp/scan.png" 9
           "image/png"); [reflexivity | lia | reflexivity |].
  right. left.
Defined.

(** *** The XLSX parser, row by row *)

(** X13. The XLSX parser gives one line per row, sheet after sheet in
    workbook order and row after row, each followed by a newline; a row
    without any value that counts as true gives an empty line. *)
Theorem parse_xlsx_row_lines (w : World) (file_path : string)
  (workbook : list (list (list cell_value))) :
  load_workbook w file_path = Ok workbook ->
  parse_xlsx w file_path
  = ([], Ok (newline_terminated (map xlsx_row (concat workbook))))
  /\ (forall row, Forall (fun v => cell_truth v = false) row ->
        xlsx_row row = "").
Proof.
  intros Hload. split; [by apply parse_xlsx_rows|].
  intros row Hrow. unfold xlsx_row.
  replace (List.filter cell_truth row) with (@nil cell_value); [done|].
  induction Hrow as [|v row' Hv _ IH]; [done|].
  cbn [List.filter]. by rewrite Hv.
Qed.

Lemma parse_xlsx_row_lines_witness :
  parse_xlsx sample_world "/tmp/book.xlsx"
  = ([], Ok (lit "1\t2\nx\ty\nTrue\n")).
Proof.
  apply (parse_xlsx_row_lines sample_world "/tmp/book.xlsx"
           [[[CInt 1; CInt 0; CInt 2]; [CStr "x"; CNone; CStr "y"]];
            [[CBool true]]]).
  reflexivity.
Defined.

Lemma parse_xlsx_meets_spec_witness :
  parse_xlsx damaged_world "/tmp/clean.xlsx"
  = ([], Ok (xlsx_text_spec [[[CStr "name"; CInt 3]; [CNone; CStr "y"]]])).
Proof.
  apply (parse_xlsx_meets_spec damaged_world "/tmp/clean.xlsx"
           [[[CStr "name"; CInt 3]; [CNone; CStr "y"]]]); [reflexivity|].
  repeat apply List.Forall_cons; try apply List.Forall_nil; reflexivity.
Defined.

(** *** The extension of a temporary file *)

Lemma rfind_aux_ge (c : ascii) (p : string) (j : nat) :
  String.get j p = Some c ->
  forall i found, (found < i)%Z ->
    (i + Z.of_nat j <= rfind_aux c p i found)%Z.
Proof.
  revert j. induction p as [|d r IH]; intros j Hget i found Hlt; [done|].
  cbn [rfind_aux]. destruct j as [|j'].
  - injection Hget as ->. rewrite Ascii.eqb_refl.
    pose proof (rfind_aux_bound c r (i + 1) i). lia.
  - cbn [String.get] in Hget.
    specialize (IH j' Hget (i + 1)%Z (if Ascii.eqb d c then i else found)).
    destruct (Ascii.eqb d c); lia.
Qed.

Lemma occurs_get (c : ascii) (s : string) :
  occurs c s = true -> exists k, String.get k s = Some c.
Proof.
  induction s as [|d r IH]; [done|]. cbn [occurs].
  destruct (Ascii.eqb_spec d c) as [->|Hne].
  - intros _. by exists 0.
  - intros [k Hk]%IH. by exists (S k).
Qed.

Lemma rfind_aux_split (c : ascii) (p : string) (i found : Z) :
  (occurs c p = false /\ rfind_aux c p i found = found)
  \/ (exists s t, p = s +:+ String c t /\ occurs c t = false
                  /\ rfind_aux c p i found
                     = (i + Z.of_nat (String.length s))%Z).
Proof.
  revert i found. induction p as [|d r IH]; intros i found; [by left|].
  cbn [rfind_aux occurs].
  destruct (IH (i + 1)%Z (if Ascii.eqb d c then i else found))
    as [[Habs Hres] | (s & t & -> & Habs & Hres)].
  - destruct (Ascii.eqb_spec d c) as [->|Hne].
    + right. exists "", r. rewrite Hres. cbn. split; [done|].
      split; [done | lia].
    + left. by rewrite Habs, Hres.
  - right. exists (String d s), t. rewrite Hres. cbn [String.length].
    rewrite append_cons. split; [done|]. split; [done | lia].
Qed.

(** What [os.path.splitext] gives as extension: nothing, or a dot
    followed by characters other than the dot and the slash. *)
Lemma splitext_extension_shape (p : string) :
  snd (splitext p) = ""
  \/ exists t, snd (splitext p) = String "." t
               /\ occurs "." t = false /\ occurs "/" t = false.
Proof.
  unfold splitext.
  destruct (Z.ltb_spec (rfind "/" p) (rfind "." p)) as [Hlt|]; [|by left].
  destruct (splitext_scan _ _ _); [|by left].
  right. unfold rfind in *.
  destruct (rfind_aux_split "." p 0 (-1)) as [[_ Hres] | (s & t & -> & Hdot & Hres)].
  { pose proof (rfind_aux_bound "/" p 0 (-1)). lia. }
  rewrite Z.add_0_l in Hres. rewrite Hres in *.
  exists t. cbn [snd]. rewrite Nat2Z.id, length_append.
  replace (String.length s + String.length (String "." t) - String.length s)
    with (String.length (String "." t)) by lia.
  rewrite substring_append_r. split; [done|]. split; [done|].
  destruct (occurs "/" t) eqn:Hsep; [|done].
  apply occurs_get in Hsep as [k Hk].
  pose proof (rfind_aux_ge "/" (s +:+ String "." t)
                (String.length s + S k)) as Hge.
  rewrite get_append_r in Hge. specialize (Hge Hk 0%Z (-1)%Z). lia.
Qed.

(** The temporary file that the endpoint hands to [process_document]
    has, for the dispatcher, the extension of the uploaded name in lower
    case: [tempfile] names the file after a directory, the prefix [tmp],
    random characters without dot or slash, and the suffix it is given,
    which is the extension of the uploaded name. *)
Lemma temp_file_extension (dir rand name : string) :
  occurs "/" rand = false -> occurs "." rand = false ->
  file_extension_of (dir +:+ "/tmp" +:+ rand +:+ snd (splitext name))
  = lower (snd (splitext name)).
Proof.
  intros Hsep Hdot. unfold file_extension_of. f_equal.
  destruct (splitext_extension_shape name)
    as [-> | (t & -> & Ht_dot & Ht_sep)].
  - rewrite append_nil_r. unfold splitext, rfind.
    rewrite !rfind_aux_append.
    change ("/tmp" +:+ rand) with (String "/" ("tmp" +:+ rand)).
    cbn [rfind_aux Ascii.eqb Bool.eqb].
    rewrite (rfind_aux_absent "/" rand), (rfind_aux_absent "." rand) by done.
    pose proof (rfind_aux_bound "." dir 0 (-1)).
    destruct (Z.ltb_spec (0 + Z.of_nat (String.length dir))
                (rfind_aux "." dir 0 (-1))); [lia | done].
  - replace (dir +:+ "/tmp" +:+ rand +:+ String "." t)
      with ((dir +:+ "/") +:+ ("tmp" +:+ rand) +:+ String "." t)
      by (by rewrite !append_assoc).
    by rewrite splitext_extension.
Qed.

(** X28. The temporary file keeps the extension of the uploaded name: for
    the dispatcher, the extension of the file that [tempfile] names
    after a directory, the prefix [tmp], random characters without dot
    or slash, and the extension of the uploaded name, is that extension
    in lower case. *)
Theorem temp_file_keeps_extension (dir rand name : string) :
  occurs "/" rand = false -> occurs "." rand = false ->
  file_extension_of (dir +:+ "/tmp" +:+ rand +:+ snd (splitext name))
  = lower (snd (splitext name)).
Proof. apply temp_file_extension. Qed.

Lemma temp_file_keeps_extension_witness :
  file_extension_of "/var/tmp.d/tmpk3v9_x2a.CSV" = ".csv"
  /\ file_extension_of "/var/tmp.d/tmpk3v9_x2a" = "".
Proof.
  split.
  - apply (temp_file_keeps_extension "/var/tmp.d" "k3v9_x2a"
             "report.final.CSV"); reflexivity.
  - apply (temp_file_keeps_extension "/var/tmp.d" "k3v9_x2a" ".bashrc");
      reflexivity.
Defined.

(** *** The extraction endpoint *)

Section Endpoint.
Import Ocr.

Lemma write_temp_file_staged (w : ApiWorld) (file : Upload) (temp : string) :
  staged w file temp ->
  write_temp_file w file = (staging_events file temp, Some temp, Ok temp).
Proof.
  intros (_ & name & Hname & Hcreate & Hwrite & Hclose).
  unfold write_temp_file, staging_events.
  by rewrite Hname, Hcreate, Hwrite, Hclose.
Qed.

Lemma sample_staged (name : string) :
  staged sample_api_world (sample_upload name)
    ("/tmp/tmpk3v9_x2a" +:+ snd (splitext name)).
Proof. split; [by vm_compute | by exists name]. Defined.

(** What [extract_text] does with an upload that is staged, from what
    [process_document] does with the temporary file. *)
Lemma extract_text_staged (w : ApiWorld) (file : Upload) (user temp : string) :
  staged w file temp ->
  extract_text w file user
  = let file_size := Z.of_nat (String.length (upload_content file)) in
    let '(tr_doc, r_doc) := process_document (core w) temp in
    let '(tr_try, r_try) :=
      match r_doc with
      | Raised e => ([], Raised e)
      | Ok (content, mime_type) =>
          let log := usage_log user (Some mime_type) file_size
                       (Some (elapsed w)) 200 None in
          ([ApiCommit log],
           match db_commit w log with
           | Raised e => Raised e
           | Ok _ => Ok {| filename := upload_filename file;
                           mime_type := mime_type;
                           content := content;
                           file_size := file_size;
                           processing_time := elapsed w |}
           end)
      end in
    let '(tr_except, r_except) :=
      match r_try with
      | Ok response => ([], Returned response)
      | Raised e => extract_except w user file_size e
      end in
    (staging_events file temp ++ map ApiCore tr_doc ++ tr_try
       ++ tr_except ++ fst (extract_finally w (Some temp)),
     match snd (extract_finally w (Some temp)) with
     | Raised e => Thrown (Core e)
     | Ok _ => r_except
     end).
Proof.
  intros Hstaged. pose proof Hstaged as [Hsize _].
  unfold extract_text, extract_try.
  destruct (Z.ltb_spec (MAX_FILE_SIZE w)
              (Z.of_nat (String.length (upload_content file)))); [lia|].
  rewrite (write_temp_file_staged w file temp Hstaged).
  destruct (process_document (core w) temp) as [tr_doc [[content mime]|e]].
  - destruct (db_commit w _) as [[]|e].
    + destruct (extract_finally w (Some temp)) as [tr_f r_f].
      cbn [fst snd]. by rewrite <- !app_assoc.
    + destruct (extract_except w user _ e) as [tr_e r_e].
      destruct (extract_finally w (Some temp)) as [tr_f r_f].
      cbn [fst snd]. by rewrite <- !app_assoc.
  - destruct (extract_except w user _ e) as [tr_e r_e].
    destruct (extract_finally w (Some temp)) as [tr_f r_f].
    cbn [fst snd app]. by rewrite <- !app_assoc, ?app_nil_r.
Qed.

Lemma extract_except_not_413 (w : ApiWorld) (user : string) (size : Z)
  (e : exn) (d : string) :
  snd (extract_except w user size e) <> Thrown (HTTPException 413 d).
Proof.
  destruct e; cbn [extract_except log_and_raise snd];
    destruct (db_commit w _); discriminate.
Qed.

(** X20. The endpoint answers 413 exactly for the uploads that are larger
    than [MAX_FILE_SIZE]; such an upload is refused before anything is
    done with it: no temporary file, no extraction, no usage log. *)
Theorem extract_text_too_large (w : ApiWorld) (file : Upload) (user : string) :
  ((MAX_FILE_SIZE w < Z.of_nat (String.length (upload_content file)))%Z ->
   extract_text w file user
   = ([], Thrown (HTTPException 413
                    ("File too large. Maximum size is "
                     +:+ str_of_Z (MAX_FILE_SIZE w) +:+ " bytes"))))
  /\ (forall d,
        snd (extract_text w file user) = Thrown (HTTPException 413 d) ->
        (MAX_FILE_SIZE w < Z.of_nat (String.length (upload_content file)))%Z).
Proof.
  unfold extract_text. split.
  - intros Hlarge.
    by destruct (Z.ltb_spec (MAX_FILE_SIZE w)
                   (Z.of_nat (String.length (upload_content file)))); [|lia].
  - intros d.
    destruct (Z.ltb_spec (MAX_FILE_SIZE w)
                (Z.of_nat (String.length (upload_content file))));
      [done|].
    destruct (extract_try w file user _) as [[tr temp_file_path] [resp|e]].
    + destruct (extract_finally w temp_file_path) as [tr_f [[]|e_f]];
        discriminate.
    + pose proof (extract_except_not_413 w user
                    (Z.of_nat (String.length (upload_content file))) e d).
      destruct (extract_except w user _ e) as [tr_e r_e].
      destruct (extract_finally w temp_file_path) as [tr_f [[]|e_f]];
        cbn [snd] in *; [done | discriminate].
Qed.

Lemma extract_text_too_large_witness :
  extract_text tiny_limit_world (sample_upload "notes.txt") "u1"
  = ([], Thrown (HTTPException 413 "File too large. Maximum size is 2 bytes")).
Proof.
  apply (extract_text_too_large tiny_limit_world (sample_upload "notes.txt")
           "u1").
  vm_compute. reflexivity.
Defined.

Lemma extract_text_returns (w : ApiWorld) (file : Upload)
  (user temp : string) (tr_doc : list event) (text mime : string) :
  staged w file temp ->
  process_document (core w) temp = (tr_doc, Ok (text, mime)) ->
  db_commit w
    (usage_log user (Some mime)
       (Z.of_nat (String.length (upload_content file)))
       (Some (elapsed w)) 200 None) = Ok tt ->
  os_unlink w temp = Ok tt ->
  extract_text w file user
  = (staging_events file temp ++ map ApiCore tr_doc
       ++ [ApiCommit
             (usage_log user (Some mime)
                (Z.of_nat (String.length (upload_content file)))
                (Some (elapsed w)) 200 None)]
       ++ fst (extract_finally w (Some temp)),
     Returned {| filename := upload_filename file;
                 mime_type := mime;
                 content := text;
                 file_size := Z.of_nat (String.length (upload_content file));
                 processing_time := elapsed w |}).
Proof.
  intros Hstaged Hdoc Hcommit Hunlink.
  rewrite (extract_text_staged w file user temp Hstaged), Hdoc.
  cbv zeta. rewrite Hcommit. cbn [app]. f_equal.
  unfold extract_finally. rewrite Hunlink.
  by destruct (str_truth temp), (path_exists w temp).
Qed.

(** X21. When the upload is staged, the extraction succeeds, the usage log is
    committed and the temporary file is removed without error, the
    endpoint returns the name of the upload, the type and text that
    [process_document] gave and the size of the upload, after committing
    a usage log with status 200 and that type. *)
Theorem extract_text_success (w : ApiWorld) (file : Upload)
  (user temp : string) (tr_doc : list event) (text mime : string) :
  staged w file temp ->
  process_document (core w) temp = (tr_doc, Ok (text, mime)) ->
  db_commit w
    (usage_log user (Some mime)
       (Z.of_nat (String.length (upload_content file)))
       (Some (elapsed w)) 200 None) = Ok tt ->
  os_unlink w temp = Ok tt ->
  extract_text w file user
  = (staging_events file temp ++ map ApiCore tr_doc
       ++ [ApiCommit
             (usage_log user (Some mime)
                (Z.of_nat (String.length (upload_content file)))
                (Some (elapsed w)) 200 None)]
       ++ fst (extract_finally w (Some temp)),
     Returned {| filename := upload_filename file;
                 mime_type := mime;
                 content := text;
                 file_size := Z.of_nat (String.length (upload_content file));
                 processing_time := elapsed w |}).
Proof. apply extract_text_returns. Qed.

Lemma extract_text_success_witness :
  snd (extract_text sample_api_world (sample_upload "data.CSV") "u1")
  = Returned {| filename := Some "data.CSV";
                mime_type := "text/csv";
                content := lit "a\tb\n1\t2";
                file_size := 3;
                processing_time := Float64 4598175219545276416 |}.
Proof.
  rewrite (extract_text_success sample_api_world (sample_upload "data.CSV")
             "u1" "/tmp/tmpk3v9_x2a.CSV"
             [EvGetsize "/tmp/tmpk3v9_x2a.CSV";
              EvSniff "/tmp/tmpk3v9_x2a.CSV";
              EvCall Parse_csv "/tmp/tmpk3v9_x2a.CSV"]
             (lit "a\tb\n1\t2") "text/csv");
    [reflexivity | apply (sample_staged "data.CSV") | reflexivity ..].
Defined.

(** X22. When the upload is staged and the usage log and the removal of the
    temporary file go through, a failed extraction is answered by its
    kind: 415 with a fixed detail for [UnsupportedFileType], 422 with the
    parser's message for [ParsingError], 500 with a fixed detail for any
    other exception; in each case a usage log with that status and the
    message of the exception is committed first. *)
Theorem extract_text_error_status (w : ApiWorld) (file : Upload)
  (user temp : string) (e : exn) :
  staged w file temp ->
  outcome (process_document (core w) temp) = Raised e ->
  (forall log, db_commit w log = Ok tt) ->
  os_unlink w temp = Ok tt ->
  let size := Z.of_nat (String.length (upload_content file)) in
  let status := match e with
                | UnsupportedFileType _ => 415%Z
                | ParsingError _ => 422%Z
                | LibError _ => 500%Z
                end in
  let detail := match e with
                | UnsupportedFileType _ => "Unsupported file type"
                | ParsingError m => m
                | LibError _ => "Internal server error"
                end in
  snd (extract_text w file user) = Thrown (HTTPException status detail)
  /\ ApiCommit (usage_log user None size None status (Some (exn_str e)))
       ∈ fst (extract_text w file user).
Proof.
  intros Hstaged Hdoc Hcommit Hunlink size status detail.
  rewrite (extract_text_staged w file user temp Hstaged).
  destruct (process_document (core w) temp) as [tr_doc r_doc].
  cbn [outcome snd] in Hdoc. subst r_doc. cbv zeta.
  assert (Hfinally : snd (extract_finally w (Some temp)) = Ok tt).
  { unfold extract_finally. rewrite Hunlink.
    by destruct (str_truth temp), (path_exists w temp). }
  assert (Hexcept : extract_except w user size e
                    = ([ApiCommit (usage_log user None size None status
                                     (Some (exn_str e)))],
                       Thrown (HTTPException status detail))).
  { subst status detail. destruct e;
      unfold extract_except, log_and_raise; cbn [exn_str];
      by rewrite Hcommit. }
  fold size. rewrite Hexcept. cbn [fst snd]. rewrite Hfinally.
  split; [done|].
  rewrite !elem_of_app. right. right. right. left. by left.
Qed.

Lemma extract_text_error_status_witness :
  snd (extract_text sample_api_world (sample_upload "x.zip") "u1")
  = Thrown (HTTPException 415 "Unsupported file type")
  /\ snd (extract_text sample_api_world (sample_upload "x.pdf") "u1")
     = Thrown (HTTPException 422
         "Error parsing PDF: No /Root object! - Is this really a PDF?").
Proof.
  split.
  - apply (extract_text_error_status sample_api_world (sample_upload "x.zip")
             "u1" "/tmp/tmpk3v9_x2a.zip"
             (UnsupportedFileType "Unsupported file type: application/zip"));
      [apply (sample_staged "x.zip") | reflexivity ..].
  - apply (extract_text_error_status sample_api_world (sample_upload "x.pdf")
             "u1" "/tmp/tmpk3v9_x2a.pdf"
             (ParsingError
                "Error parsing PDF: No /Root object! - Is this really a PDF?"));
      [apply (sample_staged "x.pdf") | reflexivity ..].
Defined.

(** X23. Once the temporary file has been written, it is removed before the
    endpoint ends, whatever came in between: a response, a failed
    extraction or a failed commit. The last two events are the check
    that the file is there and its removal. *)
Theorem extract_text_removes_temp_file (w : ApiWorld) (file : Upload)
  (user temp : string) :
  staged w file temp -> temp <> "" -> path_exists w temp = true ->
  exists tr,
    fst (extract_text w file user) = tr ++ [ApiExists temp; ApiUnlink temp].
Proof.
  intros Hstaged Hne Hexists.
  rewrite (extract_text_staged w file user temp Hstaged).
  assert (Hfinally : fst (extract_finally w (Some temp))
                     = [ApiExists temp; ApiUnlink temp]).
  { unfold extract_finally. rewrite Hexists. by destruct temp. }
  destruct (process_document (core w) temp) as [tr_doc [[text mime]|e]];
    cbv zeta.
  - destruct (db_commit w _) as [[]|e].
    + rewrite Hfinally. cbn [fst]. eexists. by rewrite !app_assoc.
    + destruct (extract_except w user _ e) as [tr_e r_e].
      rewrite Hfinally. cbn [fst]. eexists. by rewrite !app_assoc.
  - destruct (extract_except w user _ e) as [tr_e r_e].
    rewrite Hfinally. cbn [fst]. eexists. by rewrite !app_assoc.
Qed.

Lemma extract_text_removes_temp_file_witness :
  exists tr,
    fst (extract_text sample_api_world (sample_upload "x.pdf") "u1")
    = tr ++ [ApiExists "/tmp/tmpk3v9_x2a.pdf"; ApiUnlink "/tmp/tmpk3v9_x2a.pdf"].
Proof.
  apply (extract_text_removes_temp_file sample_api_world (sample_upload "x.pdf")
           "u1" "/tmp/tmpk3v9_x2a.pdf");
    [apply (sample_staged "x.pdf") | discriminate | reflexivity].
Defined.

(** X24. When the write to the temporary file fails, the file that was
    created is never removed: [temp_file_path] is still unset when the
    [finally] clause runs. The request is logged and answered 500. *)
Theorem extract_text_failed_write_leaves_file (w : ApiWorld) (file : Upload)
  (user name temp m : string) :
  (Z.of_nat (String.length (upload_content file)) <= MAX_FILE_SIZE w)%Z ->
  upload_filename file = Some name ->
  named_temporary_file w (snd (splitext name)) = Ok temp ->
  temp_write w temp (upload_content file) = Raised (LibError m) ->
  temp_close w temp = Ok tt ->
  (forall log, db_commit w log = Ok tt) ->
  snd (extract_text w file user)
  = Thrown (HTTPException 500 "Internal server error")
  /\ ApiTempCreate (snd (splitext name)) ∈ fst (extract_text w file user)
  /\ (forall path, ApiUnlink path ∉ fst (extract_text w file user)).
Proof.
  intros Hsize Hname Hcreate Hwrite Hclose Hcommit.
  unfold extract_text, extract_try, write_temp_file.
  destruct (Z.ltb_spec (MAX_FILE_SIZE w)
              (Z.of_nat (String.length (upload_content file)))); [lia|].
  rewrite Hname, Hcreate, Hwrite, Hclose.
  unfold extract_except, log_and_raise. rewrite Hcommit.
  cbn [extract_finally fst snd app].
  split; [done|]. split.
  - by left.
  - intros path Hin. rewrite !elem_of_cons, elem_of_nil in Hin.
    destruct Hin as [Hin | [Hin | [Hin | [Hin | []]]]]; discriminate.
Qed.

Lemma extract_text_failed_write_leaves_file_witness :
  snd (extract_text
         (api_world_with (fun _ => Ok tt)
            (Raised (LibError "No space left on device")) (Ok tt))
         (sample_upload "x.pdf") "u1")
  = Thrown (HTTPException 500 "Internal server error").
Proof.
  apply (extract_text_failed_write_leaves_file
           (api_world_with (fun _ => Ok tt)
              (Raised (LibError "No space left on device")) (Ok tt))
           (sample_upload "x.pdf") "u1" "x.pdf" "/tmp/tmpk3v9_x2a.pdf"
           "No space left on device");
    (reflexivity || (vm_compute; discriminate)).
Defined.



(** X26. When the temporary file cannot be removed, the exception of the
    removal is what comes out of the endpoint, whatever the extraction
    gave: a response that was ready is not returned. *)
Theorem extract_text_failed_unlink (w : ApiWorld) (file : Upload)
  (user temp : string) (e : exn) :
  staged w file temp -> temp <> "" -> path_exists w temp = true ->
  os_unlink w temp = Raised e ->
  snd (extract_text w file user) = Thrown (Core e).
Proof.
  intros Hstaged Hne Hexists Hunlink.
  rewrite (extract_text_staged w file user temp Hstaged).
  assert (Hfinally : snd (extract_finally w (Some temp)) = Raised e).
  { unfold extract_finally. rewrite Hexists, Hunlink. by destruct temp. }
  destruct (process_document (core w) temp) as [tr_doc [[text mime]|e']];
    cbv zeta.
  - destruct (db_commit w _) as [[]|e''].
    + by rewrite Hfinally.
    + destruct (extract_except w user _ e'') as [tr_e r_e]. by rewrite Hfinally.
  - destruct (extract_except w user _ e') as [tr_e r_e]. by rewrite Hfinally.
Qed.

Lemma extract_text_failed_unlink_witness :
  snd (extract_text
         (api_world_with (fun _ => Ok tt) (Ok tt)
            (Raised (LibError "Permission denied")))
         (sample_upload "data.csv") "u1")
  = Thrown (Core (LibError "Permission denied")).
Proof.
  apply (extract_text_failed_unlink _ (sample_upload "data.csv") "u1"
           "/tmp/tmpk3v9_x2a.csv" (LibError "Permission denied"));
    [| discriminate | reflexivity | reflexivity].
  split; [by vm_compute | by exists "data.csv"].
Defined.

(** X27. An empty upload is answered with an empty text and the type
    [inode/x-empty], whatever its name: the temporary file has size
    zero, so nothing is sniffed or parsed. *)
Theorem extract_text_empty_upload (w : ApiWorld) (file : Upload)
  (user temp : string) :
  staged w file temp ->
  upload_content file = "" ->
  os_path_getsize (core w) temp = Ok 0%Z ->
  (forall log, db_commit w log = Ok tt) ->
  os_unlink w temp = Ok tt ->
  snd (extract_text w file user)
  = Returned {| filename := upload_filename file;
                mime_type := "inode/x-empty";
                content := "";
                file_size := 0;
                processing_time := elapsed w |}
  /\ (forall path, ApiCore (EvSniff path) ∉ fst (extract_text w file user)).
Proof.
  intros Hstaged Hcontent Hsize Hcommit Hunlink.
  pose proof (extract_text_returns w file user temp [EvGetsize temp] ""
                "inode/x-empty" Hstaged
                (process_document_empty_nil (core w) temp Hsize)
                (Hcommit _) Hunlink) as Hrun.
  rewrite Hrun, Hcontent. cbn [fst snd map]. split; [done|].
  intros path. unfold staging_events.
  assert (Hfinally : forall ev, ev ∈ fst (extract_finally w (Some temp)) ->
                                ev = ApiExists temp \/ ev = ApiUnlink temp).
  { intros ev. unfold extract_finally.
    destruct (str_truth temp); [destruct (path_exists w temp)|];
      cbn [fst]; rewrite ?elem_of_cons, elem_of_nil; tauto. }
  rewrite !elem_of_app, !elem_of_cons, !elem_of_nil.
  intros [Hin | [Hin | [Hin | Hin]]].
  - destruct Hin as [Hin | [Hin | [Hin | []]]]; discriminate.
  - destruct Hin as [Hin | []]. discriminate.
  - destruct Hin as [Hin | []]. discriminate.
  - apply Hfinally in Hin as [Hin | Hin]; discriminate.
Qed.

Lemma extract_text_empty_upload_witness :
  snd (extract_text sample_api_world
         {| upload_filename := Some "empty"; upload_content := "" |} "u1")
  = Returned {| filename := Some "empty";
                mime_type := "inode/x-empty";
                content := "";
                file_size := 0;
                processing_time := Float64 4598175219545276416 |}.
Proof.
  apply (extract_text_empty_upload sample_api_world
           {| upload_filename := Some "empty"; upload_content := "" |}
           "u1" "/tmp/tmpk3v9_x2a"); try reflexivity.
  split; [by vm_compute | by exists "empty"].
Defined.

(** X29. An upload whose name has any case variant of [.csv] as extension and
    whose bytes sniff as [text/plain] is answered with the type
    [text/csv] and the cleaned rows of the CSV reader, tab-joined and
    newline-joined: the extension of the uploaded name reaches the
    dispatcher through the name of the temporary file. *)
Theorem extract_text_csv_upload (w : ApiWorld) (file : Upload)
  (user name dir rand : string) (size : Z) (rows : list (list string)) :
  (Z.of_nat (String.length (upload_content file)) <= MAX_FILE_SIZE w)%Z ->
  upload_filename file = Some name ->
  case_variant (snd (splitext name)) ".csv" = true ->
  occurs "/" rand = false -> occurs "." rand = false ->
  named_temporary_file w (snd (splitext name))
  = Ok (dir +:+ "/tmp" +:+ rand +:+ snd (splitext name)) ->
  temp_write w (dir +:+ "/tmp" +:+ rand +:+ snd (splitext name))
    (upload_content file) = Ok tt ->
  temp_close w (dir +:+ "/tmp" +:+ rand +:+ snd (splitext name)) = Ok tt ->
  os_path_getsize (core w) (dir +:+ "/tmp" +:+ rand +:+ snd (splitext name))
  = Ok size ->
  size <> 0%Z ->
  magic_from_file (core w) (dir +:+ "/tmp" +:+ rand +:+ snd (splitext name))
  = Ok "text/plain" ->
  csv_reader (core w) (dir +:+ "/tmp" +:+ rand +:+ snd (splitext name))
  = Ok rows ->
  (forall log, db_commit w log = Ok tt) ->
  os_unlink w (dir +:+ "/tmp" +:+ rand +:+ snd (splitext name)) = Ok tt ->
  snd (extract_text w file user)
  = Returned {| filename := Some name;
                mime_type := "text/csv";
                content := clean_text (join nl (map (join tab) rows));
                file_size := Z.of_nat (String.length (upload_content file));
                processing_time := elapsed w |}.
Proof.
  intros Hlimit Hname Hvar Hsep Hdot Hcreate Hwrite Hclose Hsize Hnz Hmime
    Hrows Hcommit Hunlink.
  set (temp := dir +:+ "/tmp" +:+ rand +:+ snd (splitext name)) in *.
  assert (Hstaged : staged w file temp) by (split; [done | by exists name]).
  assert (Hext : file_extension_of temp = ".csv").
  { unfold temp. rewrite temp_file_extension by done.
    by apply case_variant_lower. }
  assert (Hdoc : process_document (core w) temp
                 = ([EvGetsize temp; EvSniff temp; EvCall Parse_csv temp],
                    Ok (clean_text (join nl (map (join tab) rows)),
                        "text/csv"))).
  { rewrite (process_document_nonempty (core w) temp size "text/plain")
      by done.
    rewrite select_text_plain, Hext.
    cbn [String.eqb Ascii.eqb Bool.eqb parser_fn].
    unfold parse_csv, parse_csv_body, lift. rewrite Hrows. reflexivity. }
  rewrite (extract_text_returns w file user temp _ _ _ Hstaged Hdoc
             (Hcommit _) Hunlink).
  cbn [snd]. by rewrite Hname.
Qed.

Lemma extract_text_csv_upload_witness :
  snd (extract_text sample_api_world (sample_upload "Data.Csv") "u1")
  = Returned {| filename := Some "Data.Csv";
                mime_type := "text/csv";
                content := lit "a\tb\n1\t2";
                file_size := 3;
                processing_time := Float64 4598175219545276416 |}.
Proof.
  apply (extract_text_csv_upload sample_api_world (sample_upload "Data.Csv")
           "u1" "Data.Csv" "/tmp" "k3v9_x2a" 12 [["a"; "b"]; ["1"; "2"]]);
    try reflexivity; (by vm_compute) || lia.
Defined.

End Endpoint.

(** *** Properties of the normaliser *)

(** X1. The output of [clean_text] has no leading and no trailing
    whitespace, and neither has any of its lines. *)
Theorem clean_text_output_trimmed (s : string) :
  trimmed (clean_text s) /\ Forall trimmed (split_nl (clean_text s)).
Proof. split; [apply clean_text_trimmed | apply clean_text_lines_trimmed]. Qed.

(** X3. [clean_text] removes and adds whitespace only: the characters that
    are not whitespace are the same before and after, in the same
    order. *)
Theorem clean_text_keeps_visible (s : string) :
  visible (clean_text s) = visible s.
Proof. apply visible_clean_text. Qed.

(** X7. A newline before or after the raw text makes no difference to the
    cleaned text. *)
Theorem clean_text_ignores_outer_newlines (s : string) :
  clean_text (nl +:+ s) = clean_text s
  /\ clean_text (s +:+ nl) = clean_text s.
Proof. split; [apply clean_text_nl_append | apply clean_text_append_nl]. Qed.

(** X8. Lines that are single lines without leading or trailing whitespace,
    whether joined by newlines or each followed by a newline, come out
    of [clean_text] as the non-empty ones among them, in order, joined
    by newlines. *)
Theorem clean_text_drops_empty_lines (ls : list string) :
  Forall (fun l => trimmed l /\ occurs LF l = false) ls ->
  clean_text (join nl ls) = join nl (non_empty_lines ls)
  /\ clean_text (newline_terminated ls) = join nl (non_empty_lines ls).
Proof.
  intros Hls. split;
    [by apply clean_text_of_lines | by apply clean_text_of_terminated_lines].
Qed.

Lemma clean_text_drops_empty_lines_witness :
  clean_text (lit "\na\n\n\nb c\n") = lit "a\nb c".
Proof.
  apply (clean_text_drops_empty_lines [""; "a"; ""; ""; "b c"; ""]).
  repeat apply List.Forall_cons; try apply List.Forall_nil;
    (split; [split|]; reflexivity).
Defined.

Lemma process_document_io_failure_witness :
  process_document unreadable_world "/tmp/gone.pdf"
  = ([EvGetsize "/tmp/gone.pdf"],
     Raised (LibError "[Errno 2] No such file or directory"))
  /\ process_document unreadable_world "/tmp/locked.pdf"
     = ([EvGetsize "/tmp/locked.pdf"; EvSniff "/tmp/locked.pdf"],
        Raised (LibError "cannot open (Permission denied)")).
Proof.
  split.
  - apply (process_document_io_failure unreadable_world "/tmp/gone.pdf").
    reflexivity.
  - apply (process_document_io_failure unreadable_world "/tmp/locked.pdf"
             (LibError "cannot open (Permission denied)") ) with (size := 5%Z);
      [reflexivity | lia | reflexivity].
Defined.

(** *** Examples *)

Example lit_ex : lit "a\nb\tc" = String "a" (String LF (String "b" (String TAB "c"))).
Proof. reflexivity. Qed.

Example clean_ex1 : clean_text (lit "  a \n\n\n b\t\n") = lit "a\nb".
Proof. reflexivity. Qed.

Example clean_ex2 : clean_text (lit "a\n\n\nb \n \nc") = lit "a\nb\n\nc".
Proof. reflexivity. Qed.

Example clean_ex3 : clean_text (lit "a\n \nb") = lit "a\n\nb".
Proof. reflexivity. Qed.

Example clean_ex4 : clean_text (lit "a\n\nb") = lit "a\nb".
Proof. reflexivity. Qed.

Example str_of_Z_ex : (str_of_Z 0, str_of_Z 42, str_of_Z (-7)) = ("0", "42", "-7").
Proof. reflexivity. Qed.

Example splitext_ex1 : splitext "/tmp/tmpab12.CSV" = ("/tmp/tmpab12", ".CSV").
Proof. reflexivity. Qed.

Example splitext_ex2 : splitext "/tmp.d/.bashrc" = ("/tmp.d/.bashrc", "").
Proof. reflexivity. Qed.

Example splitext_ex3 : splitext "a.tar.gz" = ("a.tar", ".gz").
Proof. reflexivity. Qed.

Example splitext_ex4 : splitext "/tmp.d/notes" = ("/tmp.d/notes", "").
Proof. reflexivity. Qed.

Example lower_ex : lower ".CsV" = ".csv".
Proof. reflexivity. Qed.
